(* ===== verification/_CoqProject ===== *)
-Q . S2P
Prelude.v
JsFloat.v
IEEE.v
FloatSym.v
Host.v
JsValue.v
Distance.v
Overpass.v
Nearest.v
Ranker.v
AlertServer.v
App.v
Itinerary.v
