(* ===== verification/Prelude.v ===== *)
(** * A verification development for Tour-AI's emergency-facility locator

    The program (src/) has four parts.  src/health.js is the browser page:
    it asks the browser for the user's position, queries the Overpass
    geodata service for hospitals, clinics and pharmacies nearby
    ([queryOverpass]), normalises and filters the answer, ranks the places
    by haversine distance ([distanceMeters], [findNearbyPlaces]), picks
    the nearest one ([findNearestPlace]) and sends a panic alert to the
    server.  src/healthser.js is the alert server: [POST /api/send-alert]
    appends each alert to alerts.json.  src/server.js and src/script1.js
    are a separate mood-based itinerary feature: a route that forwards a
    prompt to a chat-completion service, and the button that calls it.

    Files, in dependency order:
    - Prelude (this file): the error monad [result] with [let?], the
      [tour] hint databases, the [invc] and [case_goal] tactics, generic
      lemmas on the monad and on lists.
    - JsFloat: JavaScript numbers as binary64 primitive floats, NaN
      propagation, [Math.PI], and [Math.round] defined exactly.
    - IEEE: an integer key [fkey] that orders finite floats, so that float
      comparisons become [lia] goals; the sign of a rounded difference.
    - FloatSym: rounding ignores the sign, so [(-a) * b = -(a * b)],
      [(-a) / b = -(a / b)], [x - y = -(y - x)] unless both are [+0],
      [a * b = b * a], and [x - x = +0] for finite [x].
    - Host: the class [JsHost] of the engine-approximated operations
      (sin, cos, atan2, [**], StringToNumber, Number::toString), the class
      [HostLaws] of what ECMAScript fixes about them, and a small engine
      [toy_host] meeting the laws, used by the concrete runs.
    - JsValue: JavaScript values, ToBoolean, [||]/[&&], property access
      (TypeError on null/undefined), object spread, ToNumber, ToString.
    - Distance: [distanceMeters] (health.js 121-129).
    - Overpass: the query text, the element normaliser and the filter,
      and [queryOverpass] with its [catch] (health.js 78-105).
    - Nearest: the [forEach] loop of [findNearestPlace] as a left fold
      (health.js 107-119).
    - Ranker: [Array.prototype.sort] as a stable insertion sort over
      SortCompare, its contract, and the comparator of health.js 148.
    - AlertServer: the alert handler of healthser.js over the file's
      contents, with JSON.stringify/JSON.parse as [json_roundtrip].
    - App: the page's global state, its handlers as one [step] function
      over events (clicks and completions of pending awaits, in any
      order), the reachable pages, and the alert server as part of the
      state (health.js 7-76, 131-187).
    - Itinerary: the [/get-itinerary] and [/ping] routes and the client
      click handler (server.js, script1.js).

    What the theorems show.  The panic alert never carries a nearest
    place: [userLatLng] has [lng], [findNearestPlace] reads [user.lon],
    every distance is NaN, and the server records [nearest_place: null]
    for every panic alert that reaches it (App, Nearest).  The nearest
    resolver refines "the first place of least distance" and agrees with
    the head of the ranked list; the ranking meets ECMAScript's sort
    contract (permutation, sorted, stable) when the distances are finite
    (Ranker).  Every place the
    query returns has truthy coordinates; failures give [[]]; one [null]
    element empties the answer; a coordinate [0] drops the place
    (Overpass).  A NaN argument, or a haversine term above 1 that the code
    does not clamp, gives a NaN distance; the distance from a point to
    itself is [+0]; the distance is exactly symmetric for an engine whose
    sine is odd (Distance).  The alert log is
    append-only over any sequence of requests; a non-array file poisons
    it; a body [timestamp] overrides the server's (AlertServer).  The
    reachable pages keep an invariant (markers match the list, only
    geolocation requests are pending before a position is known, the
    server file stays an array); a nearby query renders the places for
    the position it was started from, whatever [userLatLng] has become,
    so when two position updates race the list may belong to the older
    one; the list button records its entry's place (App).  The itinerary client shows the
    same text for a 400, a 500 and an empty answer (Itinerary).

    Bounds and fuel.  No definition needs fuel: every recursion is
    structural.  Floats are IEEE binary64 throughout; [fkey] maps finite
    floats into an integer interval bounded by [inf_key] = 2^2100, which
    exceeds every finite key (at most 2^1024 * 2^1074).

    Not modelled.  Leaflet's map widget beyond the state the code keeps
    (tiles, popup HTML), DOM text formatting ([toFixed], innerHTML
    strings: kept as structured data), [console] output, the network and
    the Overpass and chat-completion services (parameters of the
    completions; a POST and the server's answer to it are one step of
    [step], so client and server share that step's timestamp),
    Express's bootstrap ([app.listen], static files), the
    file system beyond the alerts file's contents, and the engine's
    transcendental functions (the [JsHost] interface). *)

From stdpp Require Export base list option strings sets pretty.
From Stdlib Require Export ZArith Floats.

(** ** Notation scope of the development *)

Declare Scope tour_scope.
Delimit Scope tour_scope with tour.

(** A small error monad: the completion of a JavaScript computation that can
    throw.  [Ok] is a normal completion, [Err] an exception. *)
Inductive result (E A : Type) : Type :=
| Ok (a : A)
| Err (e : E).
Arguments Ok {E A} a.
Arguments Err {E A} e.

Definition rbind {E A B : Type} (c : result E A) (k : A -> result E B) : result E B :=
  match c with
  | Ok a => k a
  | Err e => Err e
  end.

Definition rmap {E A B : Type} (f : A -> B) (c : result E A) : result E B :=
  rbind c (fun a => Ok (f a)).

(** [catch c h]: a [try { c } catch (e) { h e }] block. *)
Definition rcatch {E A : Type} (c : result E A) (h : E -> A) : A :=
  match c with
  | Ok a => a
  | Err e => h e
  end.

(** [map] of a throwing callback over an array: the first exception aborts. *)
Fixpoint rmap_list {E A B : Type} (f : A -> result E B) (l : list A) : result E (list B) :=
  match l with
  | [] => Ok []
  | x :: xs => rbind (f x) (fun y => rbind (rmap_list f xs) (fun ys => Ok (y :: ys)))
  end.

Notation "'let?' x := c 'in' k" := (rbind c (fun x => k))
  (at level 10, x name, c at level 100, k at level 200) : tour_scope.

Open Scope tour_scope.

(** ** Automation *)

Create HintDb tour discriminated.
Create Rewrite HintDb tour_rw.

(** [invc H]: inversion that cleans up after itself. *)
Ltac invc H := inversion H; subst; clear H.

(** Case on the [if]/[match] scrutinees of the goal, keeping equations. *)
Ltac case_goal :=
  repeat match goal with
         | |- context [match ?x with _ => _ end] =>
             lazymatch x with
             | context [match _ with _ => _ end] => fail
             | _ => let E := fresh "E" in destruct x eqn:E
             end
         end.

(** ** Generic lemmas on the error monad and lists *)

Lemma rbind_Ok {E A B} (a : A) (k : A -> result E B) : rbind (Ok a) k = k a.
Proof. reflexivity. Qed.

Lemma rbind_Err {E A B} (e : E) (k : A -> result E B) : rbind (Err e) k = Err e.
Proof. reflexivity. Qed.

#[export] Hint Rewrite @rbind_Ok @rbind_Err : tour_rw.

Lemma rbind_Ok_inv {E A B} (c : result E A) (k : A -> result E B) b :
  rbind c k = Ok b -> exists a, c = Ok a /\ k a = Ok b.
Proof. destruct c; simpl; [eauto|done]. Qed.

Lemma rmap_list_Ok {E A B} (f : A -> result E B) l ys :
  rmap_list f l = Ok ys -> Forall2 (fun x y => f x = Ok y) l ys.
Proof.
  revert ys; induction l as [|x l IH]; simpl; intros ys H.
  - by invc H.
  - destruct (f x) as [y|e] eqn:Hf; [|done]. simpl in H.
    destruct (rmap_list f l) as [ys'|e] eqn:Hl; [|done]. invc H.
    constructor; auto.
Qed.

Lemma rmap_list_total {E A B} (f : A -> result E B) (g : A -> B) l :
  (forall x, x ∈ l -> f x = Ok (g x)) -> rmap_list f l = Ok (map g l).
Proof.
  induction l as [|x l IH]; simpl; intros H; [done|].
  rewrite H by set_solver. simpl. rewrite IH by set_solver. done.
Qed.

Lemma rmap_list_Err {E A B} (f : A -> result E B) l1 x l2 e :
  Forall (fun y => exists b, f y = Ok b) l1 -> f x = Err e ->
  rmap_list f (l1 ++ x :: l2) = Err e.
Proof.
  induction 1 as [|y l1 [b Hb] _ IH]; simpl; intros Hx.
  - by rewrite Hx.
  - rewrite Hb. simpl. by rewrite IH.
Qed.

#[export] Hint Resolve rmap_list_total : tour.

Lemma filter_Forall_nil {A} (P : A -> Prop) `{!forall x, Decision (P x)} l :
  Forall (fun x => ~ P x) l -> filter P l = [].
Proof. induction 1; [done|]. rewrite filter_cons. by case_decide. Qed.
