(* ===== verification/JsFloat.v ===== *)
(** * JavaScript numbers as IEEE binary64 values

    A JavaScript Number is an IEEE 754 binary64 value; the model uses Rocq's
    primitive floats, whose arithmetic is the correctly rounded IEEE one
    (round to nearest, ties to even) and whose meaning is given by
    [Prim2SF] into [SpecFloat.spec_float].  This file holds the facts on
    those values that the program's behaviour depends on: NaN propagation
    through every arithmetic operator, comparisons against NaN and the
    infinities, and the exactly specified [Math.round] and [Math.PI]. *)

From S2P Require Import Prelude.

Open Scope float_scope.

(** ** Constants of the ECMAScript Math object *)

(** [Math.PI]: the binary64 value closest to pi. *)
Definition Math_PI : float := 0x1.921fb54442d18p+1.

(** ** Decidable equality *)

#[export] Instance spec_float_eq_dec : EqDecision spec_float.
Proof. solve_decision. Defined.

(** Bitwise equality of primitive floats; all NaNs are one value. *)
#[export] Instance float_eq_dec : EqDecision float.
Proof.
  intros x y. destruct (Leibniz.eqb x y) eqn:E.
  - left. by apply Leibniz.eqb_spec.
  - right. intros H. apply Leibniz.eqb_spec in H. congruence.
Defined.

(** ** NaN *)

Lemma Prim2SF_nan : Prim2SF nan = S754_nan.
Proof. reflexivity. Qed.

Lemma Prim2SF_infinity : Prim2SF infinity = S754_infinity false.
Proof. reflexivity. Qed.


(** A primitive float is NaN exactly when its specification is. *)
Lemma float_eq_nan x : Prim2SF x = S754_nan -> x = nan.
Proof. intros H. apply Prim2SF_inj. by rewrite H. Qed.

Lemma SFcompare_refl_nonnan (x : spec_float) :
  x <> S754_nan -> SFcompare x x = Some Eq.
Proof.
  destruct x as [[]|[]| |[] m e]; simpl; try done; intros _;
    rewrite Z.compare_refl, ?Pos.compare_cont_refl; done.
Qed.

Lemma is_nan_spec x : is_nan x = true <-> x = nan.
Proof.
  unfold is_nan. rewrite eqb_spec. split.
  - intros H. apply float_eq_nan.
    destruct (decide (Prim2SF x = S754_nan)) as [|Hn]; [done|].
    unfold SFeqb in H. by rewrite SFcompare_refl_nonnan in H.
  - intros ->. reflexivity.
Qed.

Lemma is_nan_false x : x <> nan -> is_nan x = false.
Proof. intros H. destruct (is_nan x) eqn:E; [|done]. by apply is_nan_spec in E. Qed.

(** Every arithmetic operator returns NaN when one operand is NaN. *)
Ltac nan_op lemma :=
  intros; apply Prim2SF_inj; rewrite lemma, Prim2SF_nan;
  repeat match goal with |- context [Prim2SF ?x] => destruct (Prim2SF x) end;
  repeat match goal with |- context [if ?b then _ else _] => destruct b end;
  reflexivity.

Lemma add_nan_l y : nan + y = nan. Proof. nan_op add_spec. Qed.
Lemma add_nan_r x : x + nan = nan. Proof. nan_op add_spec. Qed.
Lemma sub_nan_l y : nan - y = nan. Proof. nan_op sub_spec. Qed.
Lemma sub_nan_r x : x - nan = nan. Proof. nan_op sub_spec. Qed.
Lemma mul_nan_l y : nan * y = nan. Proof. nan_op mul_spec. Qed.
Lemma mul_nan_r x : x * nan = nan. Proof. nan_op mul_spec. Qed.
Lemma div_nan_l y : nan / y = nan. Proof. nan_op div_spec. Qed.
Lemma div_nan_r x : x / nan = nan. Proof. nan_op div_spec. Qed.
Lemma sqrt_nan : sqrt nan = nan. Proof. reflexivity. Qed.

(** Every comparison with NaN is false. *)
Lemma ltb_nan_l y : (nan <? y) = false.
Proof. rewrite ltb_spec, Prim2SF_nan. reflexivity. Qed.

Lemma ltb_nan_r x : (x <? nan) = false.
Proof. rewrite ltb_spec, Prim2SF_nan. unfold SFltb. by destruct (Prim2SF x). Qed.

#[export] Hint Rewrite add_nan_l add_nan_r sub_nan_l sub_nan_r mul_nan_l
  mul_nan_r div_nan_l div_nan_r sqrt_nan ltb_nan_l ltb_nan_r : tour_rw.

(** ** Finite values *)

(** A value is finite when it is neither NaN nor an infinity. *)
Lemma is_finite_spec x :
  is_finite x = true <->
  (exists s, Prim2SF x = S754_zero s) \/ (exists s m e, Prim2SF x = S754_finite s m e).
Proof.
  unfold is_finite, is_infinity, is_nan.
  rewrite !eqb_spec, abs_spec. change (Prim2SF infinity) with (S754_infinity false).
  destruct (Prim2SF x) as [[]|[]| |[] m e]; unfold SFeqb, SFcompare; simpl;
    rewrite ?Z.compare_refl, ?Pos.compare_cont_refl; simpl;
    split; intros; try done; naive_solver.
Qed.

(** A finite value is below [Infinity]. *)
Lemma finite_lt_infinity x : is_finite x = true -> (x <? infinity) = true.
Proof.
  intros H. rewrite ltb_spec, Prim2SF_infinity.
  apply is_finite_spec in H as [[s E]|[s [m [e E]]]]; rewrite E; reflexivity.
Qed.


(** ** [Math.round] *)

(** ECMAScript's [Math.round(x)]: the integral Number closest to [x], ties
    toward +Infinity; [-0] for [x] in [[-0.5, -0)], [+0] for [x] in
    [(0, 0.5)], and [x] itself when [x] is NaN, an infinity, a zero or
    already integral.  A finite [x] is [(-1)^s * m * 2^e]; for [e < 0] the
    result is [floor (v + 1/2)] with [v = x * 2^-e], computed exactly on
    integers, and it is representable since [|x| < 2^53] there. *)
Definition SF_round (x : spec_float) : spec_float :=
  match x with
  | S754_finite s m e =>
      if (0 <=? e)%Z then x
      else
        let k := Z.opp e in
        let v := if s then Z.opp (Zpos m) else Zpos m in
        let n := ((2 * v + 2 ^ k) / 2 ^ (k + 1))%Z in
        if (n =? 0)%Z then S754_zero s
        else binary_normalize prec emax n 0 false
  | _ => x
  end.

Definition Math_round (x : float) : float := SF2Prim (SF_round (Prim2SF x)).

Lemma Math_round_nan : Math_round nan = nan.
Proof. reflexivity. Qed.

#[export] Hint Rewrite Math_round_nan : tour_rw.

