(* ===== verification/IEEE.v ===== *)
(** * Order and rounding facts of binary64

    Every non-NaN binary64 value [x] is given an integer [fkey x] with
    [x < y] exactly when [fkey x < fkey y] (both zeros get [0]; a finite
    [(-1)^s * m * 2^e] gets [(-1)^s * m * 2^(e + 1074)]; the infinities get
    [+-2^2100], beyond every finite key).  The comparisons of the program
    ([d < bestDist] in findNearestPlace, the sign of the comparator in
    findNearbyPlaces) then become integer comparisons, decided by [lia].
    The second part shows that rounding a non-zero integer multiple of a
    representable power of two never yields zero, whence the sign of
    [x - y] is the sign of the comparison of [x] and [y]. *)

From S2P Require Import Prelude JsFloat.
From Stdlib Require Import Lia.

Open Scope float_scope.

(** ** Digits and valid mantissas *)

Lemma digits2_pos_bounds (p : positive) :
  (2 ^ (Zpos (digits2_pos p) - 1) <= Zpos p < 2 ^ Zpos (digits2_pos p))%Z.
Proof.
  induction p as [p IH|p IH|]; [| |simpl; lia];
    cbn [digits2_pos]; rewrite Pos2Z.inj_succ;
    set (d := Zpos (digits2_pos p)) in *;
    (assert (Hd : (1 <= d)%Z) by (unfold d; lia));
    (assert (E1 : (2 ^ (Z.succ d - 1) = 2 * 2 ^ (d - 1))%Z)
      by (rewrite <- Z.pow_succ_r by lia; f_equal; lia));
    (assert (E2 : (2 ^ Z.succ d = 2 * 2 ^ d)%Z) by (apply Z.pow_succ_r; lia));
    rewrite E1, E2; first [rewrite (Pos2Z.inj_xI p) | rewrite (Pos2Z.inj_xO p)]; lia.
Qed.

(** What [valid_binary] says of a finite value [m * 2^e]: the exponent is
    at least [emin = -1074], the mantissa has at most 53 bits, and exactly
    53 unless the value is subnormal. *)
Definition valid_fin (m : positive) (e : Z) : Prop :=
  (-1074 <= e <= 971 /\ Zpos m < 2 ^ 53 /\ (e = -1074 \/ 2 ^ 52 <= Zpos m))%Z.

Lemma bounded_valid_fin m e : bounded prec emax m e = true -> valid_fin m e.
Proof.
  unfold bounded, canonical_mantissa, SpecFloat.fexp, SpecFloat.emin.
  rewrite andb_true_iff, Z.eqb_eq, Z.leb_le.
  intros [Hc He]. change prec with 53%Z in *. change emax with 1024%Z in *. pose proof (digits2_pos_bounds m) as [Hlo Hhi].
  set (d := Zpos (digits2_pos m)) in *.
  assert (d <= 53 /\ (e = -1074 \/ d = 53))%Z as [Hd Hcase] by lia.
  unfold valid_fin. split; [lia|]. split.
  - eapply Z.lt_le_trans; [exact Hhi|]. apply Z.pow_le_mono_r; lia.
  - destruct Hcase as [He'|Hd53]; [by left|right]. rewrite Hd53 in Hlo. exact Hlo.
Qed.

Lemma Prim2SF_valid_fin x s m e : Prim2SF x = S754_finite s m e -> valid_fin m e.
Proof.
  intros E. apply bounded_valid_fin. pose proof (Prim2SF_valid x) as V.
  rewrite E in V. exact V.
Qed.

(** ** The integer key *)

Definition cond_neg (s : bool) (z : Z) : Z := if s then (- z)%Z else z.

(** The key of the infinities, above every finite key. *)
Definition inf_key : Z := 2 ^ 2100.

Definition SFkey (x : spec_float) : Z :=
  match x with
  | S754_zero _ | S754_nan => 0
  | S754_finite s m e => cond_neg s (Zpos m * 2 ^ (e + 1074))
  | S754_infinity s => cond_neg s inf_key
  end.

Definition fkey (x : float) : Z := SFkey (Prim2SF x).

Lemma valid_fin_key_bounds m e :
  valid_fin m e -> (0 < Zpos m * 2 ^ (e + 1074) < inf_key)%Z.
Proof.
  intros (He & Hm & _). unfold inf_key. split.
  - apply Z.mul_pos_pos; [lia|]. apply Z.pow_pos_nonneg; lia.
  - apply Z.lt_le_trans with (2 ^ 53 * 2 ^ (e + 1074))%Z.
    + apply Z.mul_lt_mono_pos_r; [apply Z.pow_pos_nonneg|]; lia.
    + rewrite <- Z.pow_add_r by lia. apply Z.pow_le_mono_r; lia.
Qed.

Lemma inf_key_pos : (0 < inf_key)%Z.
Proof. unfold inf_key. lia. Qed.

#[global] Opaque inf_key.

(** The lexicographic comparison of SpecFloat on (exponent, mantissa) of
    two valid positive values is the comparison of their keys. *)
Lemma lex_compare_key m1 e1 m2 e2 :
  valid_fin m1 e1 -> valid_fin m2 e2 ->
  match Z.compare e1 e2 with
  | Lt => Lt | Gt => Gt | Eq => Pos.compare_cont Eq m1 m2
  end = Z.compare (Zpos m1 * 2 ^ (e1 + 1074)) (Zpos m2 * 2 ^ (e2 + 1074)).
Proof.
  intros V1 V2.
  assert (Hlt : forall ma ea mb eb, valid_fin ma ea -> valid_fin mb eb -> (ea < eb)%Z ->
            (Zpos ma * 2 ^ (ea + 1074) < Zpos mb * 2 ^ (eb + 1074))%Z).
  { intros ma ea mb eb (Ha & Hma & _) (Hb & Hmb & Hcb) Hab.
    destruct Hcb as [Hcb|Hcb]; [lia|].
    assert (Hp : (2 ^ (eb + 1074) = 2 ^ (eb - ea) * 2 ^ (ea + 1074))%Z)
      by (rewrite <- Z.pow_add_r by lia; f_equal; lia).
    assert (H2 : (2 <= 2 ^ (eb - ea))%Z)
      by (replace 2%Z with (2 ^ 1)%Z at 1 by done; apply Z.pow_le_mono_r; lia).
    assert (Hpos : (0 < 2 ^ (ea + 1074))%Z) by (apply Z.pow_pos_nonneg; lia).
    rewrite Hp. change (2 ^ 53)%Z with (2 * 2 ^ 52)%Z in Hma. nia. }
  destruct (Z.compare_spec e1 e2) as [->|H|H].
  - rewrite Pos.compare_cont_spec. change (Pos.compare m1 m2) with (Z.compare (Zpos m1) (Zpos m2)).
    assert (Hpos : (0 < 2 ^ (e2 + 1074))%Z)
      by (destruct V2 as [? _]; apply Z.pow_pos_nonneg; lia).
    destruct (Z.compare_spec (Zpos m1) (Zpos m2)); symmetry;
      [apply Z.compare_eq_iff | apply Z.compare_lt_iff | apply Z.compare_gt_iff]; nia.
  - symmetry. apply Z.compare_lt_iff. auto.
  - symmetry. apply Z.compare_gt_iff. auto.
Qed.

Lemma lex_compare_key_neg m1 e1 m2 e2 :
  valid_fin m1 e1 -> valid_fin m2 e2 ->
  match Z.compare e1 e2 with
  | Lt => Gt | Gt => Lt | Eq => CompOpp (Pos.compare_cont Eq m1 m2)
  end = Z.compare (- (Zpos m1 * 2 ^ (e1 + 1074))) (- (Zpos m2 * 2 ^ (e2 + 1074))).
Proof.
  intros V1 V2. rewrite Z.compare_opp, <- (lex_compare_key m2 e2 m1 e1) by done.
  rewrite (Z.compare_antisym e2 e1).
  pose proof (Pos.compare_cont_antisym m1 m2 Eq) as A. simpl in A. rewrite <- A.
  by destruct (e2 ?= e1)%Z.
Qed.

(** Solve [Some c = Some (a ?= b)] from the signs of [a] and [b]. *)
Ltac compare_by_lia :=
  f_equal; symmetry;
  first [ apply Z.compare_eq_iff; lia
        | apply Z.compare_lt_iff; lia
        | apply Z.compare_gt_iff; lia ].

Lemma SFcompare_key (x y : spec_float) :
  valid_binary x = true -> valid_binary y = true -> x <> S754_nan -> y <> S754_nan ->
  SFcompare x y = Some (Z.compare (SFkey x) (SFkey y)).
Proof.
  intros Vx Vy Nx Ny. pose proof inf_key_pos.
  destruct x as [sx|sx| |sx mx ex]; [| |done|]; (destruct y as [sy|sy| |sy my ey]; [| |done|]);
    cbn [valid_binary SFkey SFcompare] in *;
    repeat match goal with
           | H : bounded _ _ _ _ = true |- _ =>
               apply bounded_valid_fin in H; pose proof (valid_fin_key_bounds _ _ H)
           end;
    destruct sx; try destruct sy; unfold cond_neg;
    first [ by rewrite lex_compare_key | by rewrite lex_compare_key_neg | compare_by_lia ].
Qed.

(** ** Comparisons of primitive floats as comparisons of keys *)

Lemma fkey_compare x y :
  x <> nan -> y <> nan -> SFcompare (Prim2SF x) (Prim2SF y) = Some (Z.compare (fkey x) (fkey y)).
Proof.
  intros Hx Hy. apply SFcompare_key; try apply Prim2SF_valid;
    intros E; [apply Hx|apply Hy]; by apply float_eq_nan.
Qed.

Lemma ltb_fkey x y : x <> nan -> y <> nan -> (x <? y) = (fkey x <? fkey y)%Z.
Proof.
  intros Hx Hy. rewrite ltb_spec. unfold SFltb. rewrite fkey_compare by done.
  unfold Z.ltb. by destruct (fkey x ?= fkey y)%Z.
Qed.

Lemma leb_fkey x y : x <> nan -> y <> nan -> (x <=? y) = (fkey x <=? fkey y)%Z.
Proof.
  intros Hx Hy. rewrite leb_spec. unfold SFleb. rewrite fkey_compare by done.
  unfold Z.leb. by destruct (fkey x ?= fkey y)%Z.
Qed.

Lemma finite_not_nan x : is_finite x = true -> x <> nan.
Proof. intros H ->. discriminate H. Qed.

#[export] Hint Resolve finite_not_nan : tour.



(** ** Rounding a non-zero value never gives zero *)

Lemma shr_1_m mrs : (0 <= shr_m mrs)%Z -> shr_m (shr_1 mrs) = Z.div2 (shr_m mrs).
Proof. destruct mrs as [[|[p|p|]|p] r s]; simpl; lia || done. Qed.

Lemma iter_shr_1_m p mrs :
  (0 <= shr_m mrs)%Z -> shr_m (iter_pos shr_1 p mrs) = (shr_m mrs / 2 ^ Zpos p)%Z.
Proof.
  assert (Hdiv : forall a k, (0 <= a)%Z -> (0 <= a / 2 ^ Zpos k)%Z)
    by (intros; apply Z.div_pos; [lia|apply Z.pow_pos_nonneg; lia]).
  assert (Hpow : forall k, (0 < 2 ^ Zpos k)%Z) by (intros; apply Z.pow_pos_nonneg; lia).
  revert mrs. induction p as [p IH|p IH|]; intros mrs Hm; simpl.
  - assert (H1 : shr_m (shr_1 mrs) = (shr_m mrs / 2)%Z) by (rewrite shr_1_m, Z.div2_div; lia).
    assert (H2 : shr_m (iter_pos shr_1 p (shr_1 mrs)) = (shr_m mrs / 2 / 2 ^ Zpos p)%Z)
      by (rewrite IH, H1; [done|rewrite H1; apply Z.div_pos; lia]).
    rewrite IH, H2 by (rewrite H2; apply Hdiv, Z.div_pos; lia).
    rewrite !Z.div_div by (pose proof (Hpow p); lia).
    f_equal. replace (Zpos p~1) with (1 + Zpos p + Zpos p)%Z by lia.
    rewrite !Z.pow_add_r, Z.pow_1_r by lia. ring.
  - rewrite IH, IH by (try rewrite IH; try apply Hdiv; lia).
    rewrite Z.div_div by (pose proof (Hpow p); lia).
    f_equal. replace (Zpos p~0) with (Zpos p + Zpos p)%Z by lia.
    rewrite Z.pow_add_r by lia. ring.
  - rewrite shr_1_m, Z.div2_div by done. done.
Qed.

Lemma shr_record_of_loc_m m l : shr_m (shr_record_of_loc m l) = m.
Proof. by destruct l as [|[]]. Qed.

Lemma fexp_ge_emin z : (-1074 <= SpecFloat.fexp prec emax z)%Z.
Proof. unfold SpecFloat.fexp, SpecFloat.emin. change prec with 53%Z. change emax with 1024%Z. lia. Qed.

(** One rounding shift keeps a positive mantissa positive, and the
    exponent at least [emin]. *)
Lemma shr_fexp_pos m e l :
  (0 < m)%Z -> (-1074 <= e)%Z ->
  (0 < shr_m (fst (shr_fexp prec emax m e l)) /\ -1074 <= snd (shr_fexp prec emax m e l))%Z.
Proof.
  intros Hm He. unfold shr_fexp, shr.
  destruct m as [|q|q]; [lia| |lia]. cbn [Zdigits2].
  pose proof (digits2_pos_bounds q) as [Hlo Hhi].
  pose proof (fexp_ge_emin (Zpos (digits2_pos q) + e)) as Hf.
  set (d := Zpos (digits2_pos q)) in *.
  destruct (SpecFloat.fexp prec emax (d + e) - e)%Z as [|p|p] eqn:En; simpl;
    rewrite ?shr_record_of_loc_m; try lia.
  rewrite iter_shr_1_m, shr_record_of_loc_m by (rewrite shr_record_of_loc_m; lia).
  split; [|lia].
  assert (Hfd : SpecFloat.fexp prec emax (d + e) = (d + e - 53)%Z).
  { unfold SpecFloat.fexp, SpecFloat.emin in *. change prec with 53%Z in *.
    change emax with 1024%Z in *. lia. }
  assert (Hp : Zpos p = (d - 53)%Z) by lia.
  rewrite Hp. apply Z.div_str_pos. split; [apply Z.pow_pos_nonneg; lia|].
  eapply Z.le_trans; [|exact Hlo]. apply Z.pow_le_mono_r; lia.
Qed.

Lemma round_nearest_even_ge m l : (m <= round_nearest_even m l)%Z.
Proof. destruct l as [|[]]; simpl; try destruct (Z.even m); lia. Qed.

(** Rounding a positive mantissa gives a non-zero result of the given sign. *)
Lemma binary_round_aux_nonzero s m e l :
  (0 < m)%Z -> (-1074 <= e)%Z ->
  (exists m' e', binary_round_aux prec emax s m e l = S754_finite s m' e' /\ (-1074 <= e')%Z) \/
  binary_round_aux prec emax s m e l = S754_infinity s.
Proof.
  intros Hm He. unfold binary_round_aux.
  destruct (shr_fexp prec emax m e l) as [mrs' e'] eqn:E1.
  pose proof (shr_fexp_pos m e l Hm He) as H1. rewrite E1 in H1. simpl in H1.
  pose proof (round_nearest_even_ge (shr_m mrs') (loc_of_shr_record mrs')).
  destruct (shr_fexp prec emax (round_nearest_even (shr_m mrs') (loc_of_shr_record mrs')) e' loc_Exact)
    as [mrs'' e''] eqn:E2.
  pose proof (shr_fexp_pos (round_nearest_even (shr_m mrs') (loc_of_shr_record mrs')) e' loc_Exact)
    as H2. rewrite E2 in H2. simpl in H2. destruct H2 as [H2 H3]; [lia|lia|].
  destruct (shr_m mrs'') as [|q|q]; [lia| |lia].
  destruct (e'' <=? emax - prec)%Z; [left; eauto|right; done].
Qed.

Lemma binary_round_nonzero s m e :
  (-1074 <= e)%Z ->
  (exists m' e', binary_round prec emax s m e = S754_finite s m' e' /\ (-1074 <= e')%Z) \/
  binary_round prec emax s m e = S754_infinity s.
Proof.
  intros He. unfold binary_round, shl_align.
  pose proof (fexp_ge_emin (Zpos (digits2_pos m) + e)).
  destruct (SpecFloat.fexp prec emax (Zpos (digits2_pos m) + e) - e)%Z eqn:Ed;
    apply binary_round_aux_nonzero; lia.
Qed.

(** The key of [binary_normalize z e] has the sign of [z]. *)
Lemma binary_normalize_sign z e :
  (-1074 <= e)%Z ->
  binary_normalize prec emax z e false <> S754_nan /\
  Z.sgn (SFkey (binary_normalize prec emax z e false)) = Z.sgn z.
Proof.
  intros He. pose proof inf_key_pos. destruct z as [|p|p]; simpl; [done| |].
  - destruct (binary_round_nonzero false p e He) as [[m' [e' [E He']]]|E];
      rewrite E; simpl; split; try done;
      try (assert (0 < 2 ^ (e' + 1074))%Z by (apply Z.pow_pos_nonneg; lia)); lia.
  - destruct (binary_round_nonzero true p e He) as [[m' [e' [E He']]]|E];
      rewrite E; simpl; split; try done;
      try (assert (0 < 2 ^ (e' + 1074))%Z by (apply Z.pow_pos_nonneg; lia)); lia.
Qed.

Lemma iter_xO_mul (m d : positive) : Zpos (Pos.iter xO m d) = (Zpos m * 2 ^ Zpos d)%Z.
Proof.
  induction d as [|d IH] using Pos.peano_ind.
  - simpl. lia.
  - rewrite Pos.iter_succ, Pos2Z.inj_xO, IH, Pos2Z.inj_succ, Z.pow_succ_r by lia. ring.
Qed.

Lemma shl_align_fst m e e' :
  (e' <= e)%Z -> Zpos (fst (shl_align m e e')) = (Zpos m * 2 ^ (e - e'))%Z.
Proof.
  intros H. unfold shl_align.
  destruct (e' - e)%Z as [|d|d] eqn:Ed; simpl.
  - replace (e - e')%Z with 0%Z by lia. lia.
  - lia.
  - rewrite iter_xO_mul. do 2 f_equal. lia.
Qed.

(** The sign of [x - y] for finite [x] and [y] is the sign of the
    comparison of [x] and [y]; in particular [x - y] is never NaN. *)
Lemma sub_fkey_sign x y :
  is_finite x = true -> is_finite y = true ->
  x - y <> nan /\ Z.sgn (fkey (x - y)) = Z.sgn (fkey x - fkey y).
Proof.
  intros Hx Hy. unfold fkey. rewrite sub_spec.
  cut (SF64sub (Prim2SF x) (Prim2SF y) <> S754_nan /\
       Z.sgn (SFkey (SF64sub (Prim2SF x) (Prim2SF y))) = Z.sgn (SFkey (Prim2SF x) - SFkey (Prim2SF y))).
  { intros [Hn Hs]. split; [|done]. intros E. apply Hn. by rewrite <- sub_spec, E. }
  apply is_finite_spec in Hx as [[sx Ex]|[sx [mx [ex Ex]]]];
  apply is_finite_spec in Hy as [[sy Ey]|[sy [my [ey Ey]]]];
  pose proof Ex as Vx; pose proof Ey as Vy;
  try apply Prim2SF_valid_fin in Vx; try apply Prim2SF_valid_fin in Vy;
  rewrite Ex, Ey; unfold SF64sub.
  - destruct sx, sy; simpl; split; done.
  - pose proof (valid_fin_key_bounds _ _ Vy).
    destruct sx, sy; simpl; split; try done; lia.
  - pose proof (valid_fin_key_bounds _ _ Vx).
    destruct sx, sy; simpl; split; try done; lia.
  - cbn [SFsub SFkey].
    set (ez := Z.min ex ey).
    destruct Vx as (Hex & _), Vy as (Hey & _).
    destruct (binary_normalize_sign
      (cond_Zopp sx (Zpos (fst (shl_align mx ex ez))) - cond_Zopp sy (Zpos (fst (shl_align my ey ez))))
      ez) as [Hn Hs]; [unfold ez; lia|].
    split; [done|]. rewrite Hs.
    rewrite !shl_align_fst by (unfold ez; lia).
    assert (Ex' : (2 ^ (ex + 1074) = 2 ^ (ex - ez) * 2 ^ (ez + 1074))%Z)
      by (rewrite <- Z.pow_add_r by (unfold ez; lia); f_equal; lia).
    assert (Ey' : (2 ^ (ey + 1074) = 2 ^ (ey - ez) * 2 ^ (ez + 1074))%Z)
      by (rewrite <- Z.pow_add_r by (unfold ez; lia); f_equal; lia).
    assert (Hp : (0 < 2 ^ (ez + 1074))%Z) by (apply Z.pow_pos_nonneg; unfold ez; lia).
    rewrite Ex', Ey'.
    set (A := (Zpos mx * 2 ^ (ex - ez))%Z). set (B := (Zpos my * 2 ^ (ey - ez))%Z).
    replace (cond_neg sx (Zpos mx * (2 ^ (ex - ez) * 2 ^ (ez + 1074))) -
             cond_neg sy (Zpos my * (2 ^ (ey - ez) * 2 ^ (ez + 1074))))%Z
      with ((cond_Zopp sx A - cond_Zopp sy B) * 2 ^ (ez + 1074))%Z
      by (unfold A, B, cond_neg, cond_Zopp; destruct sx, sy; ring).
    rewrite Z.sgn_mul, (Z.sgn_pos (2 ^ (ez + 1074))) by done. ring.
Qed.

Lemma fkey_zero : fkey 0 = 0%Z.
Proof. reflexivity. Qed.

(** The comparator [a - b] of a sort is positive exactly when [b < a], and
    negative exactly when [a < b], for finite [a] and [b]. *)
Lemma sub_pos_iff x y :
  is_finite x = true -> is_finite y = true -> (0 <? x - y) = (y <? x).
Proof.
  intros Hx Hy. destruct (sub_fkey_sign x y Hx Hy) as [Hn Hs].
  rewrite !ltb_fkey by auto with tour. rewrite fkey_zero.
  destruct (Z.ltb_spec 0 (fkey (x - y))), (Z.ltb_spec (fkey y) (fkey x)); try done; lia.
Qed.

Lemma sub_neg_iff x y :
  is_finite x = true -> is_finite y = true -> (x - y <? 0) = (x <? y).
Proof.
  intros Hx Hy. destruct (sub_fkey_sign x y Hx Hy) as [Hn Hs].
  rewrite !ltb_fkey by auto with tour. rewrite fkey_zero.
  destruct (Z.ltb_spec (fkey (x - y)) 0), (Z.ltb_spec (fkey x) (fkey y)); try done; lia.
Qed.

(** ** Order facts for the comparisons of the program (NaN included) *)

Lemma leb_nan_l y : (nan <=? y) = false.
Proof. rewrite leb_spec, Prim2SF_nan. reflexivity. Qed.

Lemma ltb_true_fkey a b :
  (a <? b) = true -> a <> nan /\ b <> nan /\ (fkey a < fkey b)%Z.
Proof.
  intros H. assert (a <> nan) by (intros ->; by rewrite ltb_nan_l in H).
  assert (b <> nan) by (intros ->; by rewrite ltb_nan_r in H).
  rewrite ltb_fkey in H by done. apply Z.ltb_lt in H. done.
Qed.

(** [q <= d] fails when [q] is NaN or its key exceeds [d]'s. *)
Lemma leb_false_of_key q d :
  d <> nan -> (q = nan \/ (q <> nan /\ (fkey d < fkey q)%Z)) -> (q <=? d) = false.
Proof.
  intros Hd [->|[Hq Hlt]]; [apply leb_nan_l|].
  rewrite leb_fkey by done. apply Z.leb_gt. done.
Qed.

(** Key facts read off a false comparison. *)
Lemma ltb_false_key q e :
  e <> nan -> (q <? e) = false -> q = nan \/ (q <> nan /\ (fkey e <= fkey q)%Z).
Proof.
  intros He H. destruct (decide (q = nan)) as [|Hq]; [by left|right].
  rewrite ltb_fkey in H by done. apply Z.ltb_ge in H. done.
Qed.

Lemma leb_false_key q e :
  e <> nan -> (q <=? e) = false -> q = nan \/ (q <> nan /\ (fkey e < fkey q)%Z).
Proof.
  intros He H. destruct (decide (q = nan)) as [|Hq]; [by left|right].
  rewrite leb_fkey in H by done. apply Z.leb_gt in H. done.
Qed.

Lemma ord_lt_leb_false q d e :
  (d <? e) = true -> (q <=? e) = false -> (q <=? d) = false.
Proof.
  intros H1 H2. destruct (ltb_true_fkey _ _ H1) as (Hd & He & Hde).
  apply leb_false_of_key; [done|]. destruct (leb_false_key _ _ He H2) as [|[? ?]]; [by left|].
  right. split; [done|lia].
Qed.

Lemma ord_lt_ltb_false q d e :
  (d <? e) = true -> (q <? e) = false -> (q <=? d) = false.
Proof.
  intros H1 H2. destruct (ltb_true_fkey _ _ H1) as (Hd & He & Hde).
  apply leb_false_of_key; [done|]. destruct (ltb_false_key _ _ He H2) as [|[? ?]]; [by left|].
  right. split; [done|lia].
Qed.

Lemma ord_lt_asym d e : (d <? e) = true -> (e <=? d) = false.
Proof.
  intros H. destruct (ltb_true_fkey _ _ H) as (Hd & He & Hde).
  apply leb_false_of_key; [done|]. right. done.
Qed.

Lemma ord_lt_trans d e f : (d <? e) = true -> (e <? f) = true -> (d <? f) = true.
Proof.
  intros H1 H2. destruct (ltb_true_fkey _ _ H1) as (Hd & He & Hde).
  destruct (ltb_true_fkey _ _ H2) as (_ & Hf & Hef).
  rewrite ltb_fkey by done. apply Z.ltb_lt. lia.
Qed.
