(* ===== verification/FloatSym.v ===== *)
(** * Sign symmetry of binary64 arithmetic

    Rounding to nearest, ties to even, does not look at the sign: the
    rounded value of [-r] is the opposite of the rounded value of [r].
    Hence [(-a) * b = -(a * b)], [(-a) / b = -(a / b)], and [x - y] is
    [-(y - x)] except when both are [+0].  Multiplication commutes
    exactly.  These hold for every float, NaN and the infinities
    included; they are what makes [distanceMeters] symmetric in its two
    points (Distance.v). *)

From S2P Require Import Prelude JsFloat.
From Stdlib Require Import Lia.

Open Scope float_scope.

(** ** On the specification floats *)

Lemma round_aux_negb s m e l :
  binary_round_aux prec emax (negb s) m e l = SFopp (binary_round_aux prec emax s m e l).
Proof.
  unfold binary_round_aux.
  destruct (shr_fexp prec emax m e l) as [mrs' e'].
  destruct (shr_fexp prec emax _ e' loc_Exact) as [mrs'' e''].
  destruct (shr_m mrs''); try done. simpl. by destruct (e'' <=? emax - prec)%Z.
Qed.

Lemma binary_normalize_opp z e :
  z <> 0%Z -> binary_normalize prec emax (- z) e false = SFopp (binary_normalize prec emax z e false).
Proof.
  intros Hz. destruct z as [|p|p]; [done| |]; simpl; unfold binary_round;
    destruct (shl_align _ _ _); [apply (round_aux_negb false)|].
  rewrite <- (round_aux_negb true). reflexivity.
Qed.

Lemma SFopp_involutive x : SFopp (SFopp x) = x.
Proof. destruct x; simpl; rewrite ?negb_involutive; done. Qed.

Lemma SFmul_opp_l x y : SF64mul (SFopp x) y = SFopp (SF64mul x y).
Proof.
  destruct x as [sx|sx| |sx mx ex], y as [sy|sy| |sy my ey]; simpl; try done;
    destruct sx, sy; try reflexivity; simpl;
    first [apply (round_aux_negb false) | apply (round_aux_negb true)].
Qed.

Lemma SFmul_comm x y : SF64mul x y = SF64mul y x.
Proof.
  destruct x as [sx|sx| |sx mx ex], y as [sy|sy| |sy my ey]; simpl; rewrite ?(xorb_comm sx sy); try done.
  by rewrite Pos.mul_comm, Z.add_comm.
Qed.

Lemma SFdiv_opp_l x y : SF64div (SFopp x) y = SFopp (SF64div x y).
Proof.
  destruct x as [sx|sx| |sx mx ex], y as [sy|sy| |sy my ey]; simpl; try done;
    destruct sx, sy; try reflexivity; simpl;
    destruct (SFdiv_core_binary prec emax _ _ _ _) as [[mz ez] lz];
    first [apply (round_aux_negb false) | apply (round_aux_negb true)].
Qed.

Lemma cond_Zopp_sub_swap a b : (b - a = - (a - b))%Z.
Proof. lia. Qed.

Lemma SFsub_antisym x y :
  SF64sub x y = SFopp (SF64sub y x) \/ (SF64sub x y = S754_zero false /\ SF64sub y x = S754_zero false).
Proof.
  destruct x as [sx|sx| |sx mx ex], y as [sy|sy| |sy my ey]; simpl;
    try (destruct sx; destruct sy; simpl; auto; fail);
    try (left; simpl; rewrite ?negb_involutive; reflexivity).
  rewrite (Z.min_comm ey ex).
  set (A := cond_Zopp sx (Zpos (fst (shl_align mx ex (Z.min ex ey))))).
  set (B := cond_Zopp sy (Zpos (fst (shl_align my ey (Z.min ex ey))))).
  rewrite (cond_Zopp_sub_swap A B).
  destruct (decide (A - B = 0)%Z) as [E|E].
  - right. rewrite E. done.
  - left. rewrite binary_normalize_opp by done. by rewrite SFopp_involutive.
Qed.

(** ** On primitive floats *)

Lemma float_mul_opp_l a b : (- a) * b = - (a * b).
Proof. apply Prim2SF_inj. by rewrite mul_spec, !opp_spec, mul_spec, SFmul_opp_l. Qed.

Lemma float_div_opp_l a b : (- a) / b = - (a / b).
Proof. apply Prim2SF_inj. by rewrite div_spec, !opp_spec, div_spec, SFdiv_opp_l. Qed.

Lemma float_mul_comm a b : a * b = b * a.
Proof. apply Prim2SF_inj. by rewrite !mul_spec, SFmul_comm. Qed.

(** [x - y] and [y - x] are opposite, or both [+0]. *)
Lemma float_sub_antisym x y : x - y = - (y - x) \/ (x - y = 0 /\ y - x = 0).
Proof.
  destruct (SFsub_antisym (Prim2SF x) (Prim2SF y)) as [E|[E1 E2]].
  - left. apply Prim2SF_inj. by rewrite opp_spec, !sub_spec.
  - right. split; apply Prim2SF_inj; rewrite sub_spec; [exact E1|exact E2].
Qed.

(** [x - x] is [+0] for finite [x]. *)
Lemma float_sub_self x : is_finite x = true -> x - x = 0.
Proof.
  intros Hx. apply Prim2SF_inj. rewrite sub_spec. change (Prim2SF 0) with (S754_zero false).
  apply is_finite_spec in Hx as [[s E]|[s [m [e E]]]]; rewrite E; destruct s; simpl;
    rewrite ?Z.sub_diag; reflexivity.
Qed.

(** A finite number times [+0] is a zero. *)
Lemma finite_mul_zero y : is_finite y = true -> y * 0 = 0 \/ y * 0 = -0.
Proof.
  intros Hy. apply is_finite_spec in Hy as [[s E]|[s [m [e E]]]];
    destruct s; [right|left|right|left]; apply Prim2SF_inj; rewrite mul_spec, E; reflexivity.
Qed.
