(* ===== verification/Host.v ===== *)
(** * The JavaScript engine's implementation-approximated operations

    ECMAScript fixes the result of [+ - * /], [Math.sqrt] and [Math.round]
    exactly, but leaves [Math.sin], [Math.cos], [Math.atan2], the [**]
    operator, StringToNumber and Number::toString to the engine (they are
    "implementation-approximated" or specified by long algorithms outside
    this program).  The program is modelled against the interface
    [JsHost] of those operations; the laws the ECMAScript specification
    does fix (NaN in, NaN out; [sin(+0) = +0]; [atan2(+0, x) = +0] for
    positive [x]; [+0 ** 2 = +0]) form the class [HostLaws], and every
    theorem that needs one assumes it.  [toy_host] is a small engine whose
    laws are proved, so that the theorems' hypotheses can be met at
    concrete inputs. *)

From S2P Require Import Prelude JsFloat.

Open Scope float_scope.

Class JsHost := {
  Math_sin : float -> float;
  Math_cos : float -> float;
  Math_atan2 : float -> float -> float;
  (** [x ** y], Number::exponentiate *)
  Math_pow : float -> float -> float;
  (** StringToNumber, applied by ToNumber to strings *)
  StringToNumber : string -> float;
  (** Number::toString, applied by ToString and template literals *)
  NumberToString : float -> string
}.

(** The laws ECMAScript fixes for those operations (sections 21.3.2 and
    6.1.6.1.3 of ECMA-262), plus that [Math.cos] never returns an infinity. *)
Class HostLaws `{JsHost} : Prop := {
  sin_nan : Math_sin nan = nan;
  sin_zero : Math_sin 0 = 0;
  cos_nan : Math_cos nan = nan;
  cos_finite x : is_finite x = true -> is_finite (Math_cos x) = true;
  atan2_nan_l x : Math_atan2 nan x = nan;
  atan2_nan_r y : Math_atan2 y nan = nan;
  atan2_zero_pos x : (0 <? x) = true -> Math_atan2 0 x = 0;
  pow_nan_2 : Math_pow nan 2 = nan;
  pow_zero_2 : Math_pow 0 2 = 0
}.

#[export] Hint Rewrite @sin_nan @sin_zero @cos_nan @atan2_nan_l @atan2_nan_r
  @pow_nan_2 @pow_zero_2 using typeclasses eauto : tour_rw.

(** ** A small engine for concrete runs

    [sin x = x], [cos x = x * 0 + 1], [atan2 y x = y / x], [x ** y = x * x]:
    crude, but they obey [HostLaws], which is all the theorems use.
    Numbers print as the decimal of their integer part. *)

Definition toy_to_string (x : float) : string :=
  match Prim2SF x with
  | S754_zero _ => "0"
  | S754_finite s m e =>
      let z := Z.shiftl (Zpos m) e in
      (if s then "-" else "") +:+ pretty (Z.to_N z)
  | S754_infinity s => if s then "-Infinity" else "Infinity"
  | S754_nan => "NaN"
  end%string.

#[export] Instance toy_host : JsHost := {
  Math_sin x := x;
  Math_cos x := x * 0 + 1;
  Math_atan2 y x := y / x;
  Math_pow x _ := x * x;
  StringToNumber _ := nan;
  NumberToString := toy_to_string
}.

Lemma finite_mul_zero_add_one x : is_finite x = true -> x * 0 + 1 = 1.
Proof.
  intros Hx. apply Prim2SF_inj. rewrite add_spec, mul_spec.
  change (Prim2SF 0) with (S754_zero false).
  change (Prim2SF 1) with (S754_finite false 4503599627370496 (-52)).
  apply is_finite_spec in Hx as [[s E]|[s [m [e E]]]]; rewrite E;
    destruct s; reflexivity.
Qed.

Lemma zero_div_pos x : (0 <? x) = true -> 0 / x = 0.
Proof.
  rewrite ltb_spec. intros H. apply Prim2SF_inj. rewrite div_spec.
  change (Prim2SF 0) with (S754_zero false) in *.
  destruct (Prim2SF x) as [[]|[]| |[] m e]; done.
Qed.

#[export] Instance toy_host_laws : @HostLaws toy_host.
Proof.
  split; simpl; intros; autorewrite with tour_rw; try reflexivity.
  - by rewrite finite_mul_zero_add_one.
  - by apply zero_div_pos.
Qed.
