(* ===== verification/JsValue.v ===== *)
(** * JavaScript values and the operators the program applies to them

    [jsval] covers what the program handles: the values JSON.parse returns
    (Overpass responses, request bodies, the alerts file) and the objects the
    code builds.  An object is the list of its own properties in creation
    order, which is the order JSON.stringify writes them; objects that come
    from JSON.parse have unique keys (a repeated key keeps its last value).
    The operators are ECMAScript's: ToBoolean ([truthy]), the value-returning
    [||] and [&&], property access [v.k] (a TypeError on [undefined] and
    [null]), ToNumber, the subtraction operator, and the object literal with
    spread [{ ...o, k: v }]. *)

From S2P Require Import Prelude JsFloat Host.

Open Scope float_scope.

Inductive jsval : Type :=
| JUndefined
| JNull
| JBool (b : bool)
| JNumber (n : float)
| JString (s : string)
| JArray (xs : list jsval)
| JObject (fs : list (string * jsval)).

Abbreviation jsobj := (list (string * jsval)).

(** The exceptions the modelled code can raise. *)
Inductive js_error : Type :=
| TypeError
| SyntaxError
| FetchFailed.

#[export] Instance js_error_eq_dec : EqDecision js_error.
Proof. solve_decision. Defined.

Abbreviation js := (result js_error).

(** ** ToBoolean *)

Definition truthy (v : jsval) : bool :=
  match v with
  | JUndefined | JNull => false
  | JBool b => b
  | JNumber n => negb (is_nan n || is_zero n)
  | JString s => negb (bool_decide (s = ""%string))
  | JArray _ | JObject _ => true
  end.

(** [a || b] and [a && b] return one of their operands; the right operand
    is evaluated (and may throw) only when it is returned. *)
Definition js_or (a : jsval) (b : js jsval) : js jsval :=
  if truthy a then Ok a else b.

Definition js_and (a : jsval) (b : js jsval) : js jsval :=
  if truthy a then b else Ok a.

(** ** Property access *)

Fixpoint obj_get (fs : jsobj) (k : string) : jsval :=
  match fs with
  | [] => JUndefined
  | (k', v) :: fs' => if bool_decide (k = k') then v else obj_get fs' k
  end.

(** The decimal name of an array index, as property keys spell it. *)
Definition index_key (i : nat) : string := pretty (N.of_nat i).

Fixpoint array_get (i : nat) (xs : list jsval) (k : string) : jsval :=
  match xs with
  | [] => JUndefined
  | x :: xs' => if bool_decide (k = index_key i) then x else array_get (S i) xs' k
  end.

Definition num_of_nat (n : nat) : float :=
  SF2Prim (binary_normalize prec emax (Z.of_nat n) 0 false).

(** [v.k] (and [v[k]]).  Only own properties are read: none of the keys
    the program reads is a property of Object.prototype or
    Array.prototype other than [length]. *)
Definition get_prop (v : jsval) (k : string) : js jsval :=
  match v with
  | JUndefined | JNull => Err TypeError
  | JObject fs => Ok (obj_get fs k)
  | JArray xs =>
      Ok (if bool_decide (k = "length"%string) then JNumber (num_of_nat (length xs))
          else array_get 0 xs k)
  | JString s =>
      Ok (if bool_decide (k = "length"%string) then JNumber (num_of_nat (String.length s))
          else JUndefined)
  | JBool _ | JNumber _ => Ok JUndefined
  end.

(** ** Object literals *)

(** CreateDataProperty on a fresh object: an existing key keeps its place
    and takes the new value; a new key is appended. *)
Fixpoint obj_set (fs : jsobj) (k : string) (v : jsval) : jsobj :=
  match fs with
  | [] => [(k, v)]
  | (k', v') :: fs' =>
      if bool_decide (k = k') then (k', v) :: fs' else (k', v') :: obj_set fs' k v
  end.

(** The own enumerable properties that [...v] copies. *)
Definition own_props (v : jsval) : jsobj :=
  match v with
  | JObject fs => fs
  | JArray xs => imap (fun i x => (index_key i, x)) xs
  | _ => []
  end.

(** [{ ...target-so-far, ...v }]: copy [v]'s properties in order. *)
Definition obj_spread (fs : jsobj) (v : jsval) : jsobj :=
  foldl (fun acc kv => obj_set acc kv.1 kv.2) fs (own_props v).

(** ** ToNumber and ToString *)

Section Conversions.
Context `{JsHost}.

Fixpoint to_string (v : jsval) : string :=
  match v with
  | JUndefined => "undefined"
  | JNull => "null"
  | JBool b => if b then "true" else "false"
  | JNumber n => NumberToString n
  | JString s => s
  | JArray xs =>
      (* Array.prototype.join(","), with "" for undefined and null *)
      (fix join (xs : list jsval) : string :=
         match xs with
         | [] => ""
         | [x] => match x with JUndefined | JNull => "" | _ => to_string x end
         | x :: xs' =>
             (match x with JUndefined | JNull => "" | _ => to_string x end)
               +:+ "," +:+ join xs'
         end) xs
  | JObject _ => "[object Object]"
  end%string.

Definition to_number (v : jsval) : float :=
  match v with
  | JUndefined => nan
  | JNull => 0
  | JBool b => if b then 1 else 0
  | JNumber n => n
  | JString s => StringToNumber s
  | JArray _ | JObject _ => StringToNumber (to_string v)
  end.

(** The binary [-] operator. *)
Definition js_sub (a b : jsval) : float := to_number a - to_number b.

End Conversions.

(** ** Basic facts *)

(** Induction on values, with the hypothesis on every element of an array
    and every property value of an object. *)
Lemma jsval_nested_ind (P : jsval -> Prop) :
  P JUndefined -> P JNull -> (forall b, P (JBool b)) -> (forall n, P (JNumber n)) ->
  (forall s, P (JString s)) -> (forall xs, Forall P xs -> P (JArray xs)) ->
  (forall fs, Forall (fun kv => P kv.2) fs -> P (JObject fs)) ->
  forall v, P v.
Proof.
  intros HU HN HB HNum HS HA HO. fix IH 1.
  intros [| | b | n | s | xs | fs]; [exact HU|exact HN|apply HB|apply HNum|apply HS| |].
  - apply HA. exact ((fix go xs := match xs return Forall P xs with
                      | [] => @List.Forall_nil _ P
                      | x :: xs' => @List.Forall_cons _ P x xs' (IH x) (go xs') end) xs).
  - apply HO. exact ((fix go fs := match fs return Forall (fun kv => P kv.2) fs with
                      | [] => @List.Forall_nil _ _
                      | kv :: fs' => @List.Forall_cons _ (fun kv => P kv.2) kv fs' (IH kv.2) (go fs')
                      end) fs).
Qed.


Lemma obj_get_set_eq fs k v : obj_get (obj_set fs k v) k = v.
Proof.
  induction fs as [|[k' v'] fs IH]; simpl.
  - by rewrite bool_decide_true.
  - case_bool_decide; simpl; [subst; by rewrite bool_decide_true|].
    by rewrite bool_decide_false.
Qed.

Lemma obj_get_set_ne fs k k' v : k <> k' -> obj_get (obj_set fs k v) k' = obj_get fs k'.
Proof.
  intros Hne. induction fs as [|[k0 v0] fs IH]; simpl.
  - by rewrite bool_decide_false.
  - case_bool_decide; simpl; [subst; by rewrite !bool_decide_false|].
    case_bool_decide; [done|]. done.
Qed.


Lemma to_number_undefined `{JsHost} : to_number JUndefined = nan.
Proof. reflexivity. Qed.

Lemma js_sub_undefined_r `{JsHost} a : js_sub a JUndefined = nan.
Proof. unfold js_sub. simpl. apply sub_nan_r. Qed.

Lemma js_sub_undefined_l `{JsHost} b : js_sub JUndefined b = nan.
Proof. unfold js_sub. simpl. apply sub_nan_l. Qed.

#[export] Hint Rewrite obj_get_set_eq @to_number_undefined @js_sub_undefined_r
  @js_sub_undefined_l : tour_rw.



Lemma get_prop_object fs k : get_prop (JObject fs) k = Ok (obj_get fs k).
Proof. reflexivity. Qed.

#[export] Hint Rewrite get_prop_object : tour_rw.
