(* ===== verification/Distance.v ===== *)
(** * Distance calculator: [distanceMeters] (src/health.js, lines 121-129)

    The haversine distance on a sphere of radius 6371000 m, written with
    the operators of the source in their evaluation order: subtraction of
    the raw arguments (ToNumber on each), [toRad], [Math.sin(.)**2],
    the left-associated product [cos * cos * sin**2], [Math.sqrt] and
    [Math.atan2].  The arguments are JavaScript values, since callers pass
    properties that may be absent ([user.lon] in findNearestPlace).

    Theorems: any argument that converts to NaN makes the distance NaN;
    the haversine term above 1 (which the code never clamps) makes it
    NaN; the distance from a point to itself is [+0] (for coordinates
    whose squared cosine is finite); the distance is exactly symmetric
    for an engine whose [Math.sin] is odd and whose [x ** 2] is even in
    [x] (section 8 of the spec asks for symmetry up to rounding). *)

From S2P Require Import Prelude JsFloat IEEE FloatSym Host JsValue.

Open Scope float_scope.

Section Distance.
Context `{JsHost}.

(** [const toRad = x => x * Math.PI / 180;] *)
Definition toRad (x : jsval) : float := to_number x * Math_PI / 180.

(** [Math.sin(dLat/2)**2 + Math.cos(toRad(lat1)) * Math.cos(toRad(lat2)) *
    Math.sin(dLon/2)**2], the haversine term [a] of lines 124-126. *)
Definition haversine_a (lat1 lon1 lat2 lon2 : jsval) : float :=
  let dLat := toRad (JNumber (js_sub lat2 lat1)) in
  let dLon := toRad (JNumber (js_sub lon2 lon1)) in
  Math_pow (Math_sin (dLat / 2)) 2
  + Math_cos (toRad lat1) * Math_cos (toRad lat2) * Math_pow (Math_sin (dLon / 2)) 2.

(** [function distanceMeters(lat1, lon1, lat2, lon2)] *)
Definition distanceMeters (lat1 lon1 lat2 lon2 : jsval) : float :=
  let R := 6371000 in
  let a := haversine_a lat1 lon1 lat2 lon2 in
  let c := 2 * Math_atan2 (sqrt a) (sqrt (1 - a)) in
  R * c.

End Distance.

Section DistanceFacts.
Context `{HL : HostLaws}.

Lemma toRad_nan x : to_number x = nan -> toRad x = nan.
Proof. unfold toRad. intros ->. by autorewrite with tour_rw. Qed.

Lemma toRad_number_nan : toRad (JNumber nan) = nan.
Proof. by apply toRad_nan. Qed.

#[local] Hint Rewrite toRad_number_nan : tour_rw.

(** Once the haversine term is NaN, so is the distance. *)
Lemma distance_of_a_nan lat1 lon1 lat2 lon2 :
  haversine_a lat1 lon1 lat2 lon2 = nan -> distanceMeters lat1 lon1 lat2 lon2 = nan.
Proof. unfold distanceMeters. intros ->. by autorewrite with tour_rw. Qed.

Lemma js_sub_nan_l a b : to_number a = nan -> js_sub a b = nan.
Proof. unfold js_sub. intros ->. apply sub_nan_l. Qed.

Lemma js_sub_nan_r a b : to_number b = nan -> js_sub a b = nan.
Proof. unfold js_sub. intros ->. apply sub_nan_r. Qed.

Lemma haversine_a_nan_lat lat1 lon1 lat2 lon2 :
  to_number lat1 = nan \/ to_number lat2 = nan -> haversine_a lat1 lon1 lat2 lon2 = nan.
Proof.
  unfold haversine_a. intros [E|E];
    [rewrite (js_sub_nan_r lat2 lat1 E) | rewrite (js_sub_nan_l lat2 lat1 E)];
    by autorewrite with tour_rw.
Qed.

Lemma haversine_a_nan_lon lat1 lon1 lat2 lon2 :
  to_number lon1 = nan \/ to_number lon2 = nan -> haversine_a lat1 lon1 lat2 lon2 = nan.
Proof.
  unfold haversine_a. intros [E|E];
    [rewrite (js_sub_nan_r lon2 lon1 E) | rewrite (js_sub_nan_l lon2 lon1 E)];
    by autorewrite with tour_rw.
Qed.

(** C11: [distanceMeters] is NaN as soon as one argument converts to NaN: an
    absent property ([undefined]), a non-numeric string, an object. *)
Lemma distance_nan lat1 lon1 lat2 lon2 :
  to_number lat1 = nan \/ to_number lon1 = nan \/ to_number lat2 = nan \/ to_number lon2 = nan ->
  distanceMeters lat1 lon1 lat2 lon2 = nan.
Proof.
  intros Hn. apply distance_of_a_nan.
  destruct Hn as [E|[E|[E|E]]];
    [apply haversine_a_nan_lat|apply haversine_a_nan_lon|apply haversine_a_nan_lat|apply haversine_a_nan_lon];
    auto.
Qed.

(** [Math.sqrt] of a negative number is NaN. *)
Lemma sqrt_neg x : (x <? 0) = true -> sqrt x = nan.
Proof.
  rewrite ltb_spec. change (Prim2SF 0) with (S754_zero false). intros Hlt.
  apply Prim2SF_inj. rewrite sqrt_spec.
  destruct (Prim2SF x) as [[]|[]| |[] m e]; done.
Qed.

(** [1 - a] is negative when [1 < a]. *)
Lemma one_minus_neg a : (1 <? a) = true -> (1 - a <? 0) = true.
Proof.
  intros Hlt. destruct (is_finite a) eqn:Fa.
  - rewrite sub_neg_iff by done. exact Hlt.
  - rewrite ltb_spec in *. rewrite sub_spec.
    change (Prim2SF 1) with (S754_finite false 4503599627370496 (-52)) in *.
    change (Prim2SF 0) with (S754_zero false).
    destruct (Prim2SF a) as [[]|[]| |[] m e] eqn:E; try done;
      exfalso; assert (is_finite a = true) by (apply is_finite_spec; eauto); congruence.
Qed.

(** C10: The code does not clamp the haversine term to [[0, 1]]: when rounding
    makes it exceed 1, [Math.sqrt(1 - a)] is NaN and so is the distance. *)
Lemma distance_unclamped_nan lat1 lon1 lat2 lon2 :
  (1 <? haversine_a lat1 lon1 lat2 lon2) = true -> distanceMeters lat1 lon1 lat2 lon2 = nan.
Proof.
  intros Hlt. unfold distanceMeters.
  rewrite (sqrt_neg (1 - haversine_a lat1 lon1 lat2 lon2)) by (by apply one_minus_neg).
  by autorewrite with tour_rw.
Qed.

End DistanceFacts.

(** ** Distance from a point to itself *)

Section SelfDistance.
Context `{HL : HostLaws}.

(** C24: [distanceMeters(a, a) = 0] for a point with finite coordinates
    whose squared cosine [cos(lat) * cos(lat)] is finite (every engine's
    cosine lies in [[-1, 1]]): [lat - lat] is [+0], the haversine term is
    [0 + (c * c) * 0 = +0], and [atan2(0, 1)] is [+0]. *)
Theorem distance_self lat lon :
  is_finite (to_number lat) = true -> is_finite (to_number lon) = true ->
  is_finite (Math_cos (toRad lat) * Math_cos (toRad lat)) = true ->
  distanceMeters lat lon lat lon = 0.
Proof.
  intros Hlat Hlon Hc. unfold distanceMeters, haversine_a, js_sub.
  rewrite !float_sub_self by done.
  change (toRad (JNumber 0) / 2) with 0. rewrite sin_zero, pow_zero_2.
  destruct (finite_mul_zero _ Hc) as [E|E]; rewrite E;
    change (sqrt (0 + 0)) with 0; change (sqrt (1 - (0 + 0))) with 1;
    try (change (0 + -0) with 0; change (1 - 0) with 1);
    rewrite atan2_zero_pos by reflexivity; reflexivity.
Qed.

End SelfDistance.

(** ** Symmetry *)

(** ECMAScript leaves [Math.sin] and [**] to the engine; an engine whose
    sine is odd and whose [x ** 2] is even in [x] (as [x * x] is) makes the
    distance exactly symmetric. *)
Section Symmetry.
Context `{JsHost}.
Hypothesis sin_odd : forall x, Math_sin (- x) = - Math_sin x.
Hypothesis pow2_even : forall x, Math_pow (- x) 2 = Math_pow x 2.

Lemma sin_sq_antisym a b :
  Math_pow (Math_sin (toRad (JNumber (a - b)) / 2)) 2 =
  Math_pow (Math_sin (toRad (JNumber (b - a)) / 2)) 2.
Proof.
  destruct (float_sub_antisym a b) as [->|[-> ->]]; [|done].
  unfold toRad. simpl. by rewrite float_mul_opp_l, !float_div_opp_l, sin_odd, pow2_even.
Qed.

(** C23: [distanceMeters(a, b) = distanceMeters(b, a)] for all arguments,
    NaN and infinities included: [lat2 - lat1] and [lat1 - lat2] round to
    opposite values (or both to [+0]), the sign disappears in
    [sin(.)**2], and the product of the cosines commutes exactly. *)
Theorem distance_symm lat1 lon1 lat2 lon2 :
  distanceMeters lat1 lon1 lat2 lon2 = distanceMeters lat2 lon2 lat1 lon1.
Proof.
  unfold distanceMeters, haversine_a, js_sub.
  rewrite (sin_sq_antisym (to_number lat2)), (sin_sq_antisym (to_number lon2)).
  by rewrite (float_mul_comm (Math_cos (toRad lat1))).
Qed.

End Symmetry.

(** ** Runs *)

Lemma distance_nan_witness :
  distanceMeters (H := toy_host) (JNumber 12.9716) JUndefined (JNumber 12.9720) (JNumber 77.5946) = nan.
Proof. apply distance_nan. right; left. reflexivity. Defined.

(** Two points half a circle apart in latitude: with the small engine the
    haversine term exceeds 1. *)
Lemma distance_unclamped_nan_witness :
  (1 <? haversine_a (H := toy_host) (JNumber 0) (JNumber 0) (JNumber 180) (JNumber 0)) = true /\
  distanceMeters (H := toy_host) (JNumber 0) (JNumber 0) (JNumber 180) (JNumber 0) = nan.
Proof.
  split; [vm_compute; reflexivity|].
  apply distance_unclamped_nan. vm_compute. reflexivity.
Defined.

Lemma toy_sin_odd x : @Math_sin toy_host (- x) = - @Math_sin toy_host x.
Proof. reflexivity. Qed.

Lemma toy_pow2_even x : @Math_pow toy_host (- x) 2 = @Math_pow toy_host x 2.
Proof.
  simpl. rewrite float_mul_opp_l, (float_mul_comm x (- x)), float_mul_opp_l.
  apply Prim2SF_inj. by rewrite !opp_spec, SFopp_involutive.
Qed.

Lemma distance_symm_witness :
  distanceMeters (H := toy_host) (JNumber 12.9716) (JNumber 77.5946) (JNumber 12.9750) (JNumber 77.5946) =
  distanceMeters (H := toy_host) (JNumber 12.9750) (JNumber 77.5946) (JNumber 12.9716) (JNumber 77.5946).
Proof. apply distance_symm; [exact toy_sin_odd|exact toy_pow2_even]. Defined.

Lemma distance_self_witness :
  distanceMeters (H := toy_host) (JNumber 12.9716) (JNumber 77.5946) (JNumber 12.9716) (JNumber 77.5946) = 0.
Proof. apply distance_self; vm_compute; reflexivity. Defined.
