(* ===== verification/Overpass.v ===== *)
(** * Geodata query client and place normaliser: [queryOverpass]
    (src/health.js, lines 78-105)

    [overpass_query] builds the Overpass QL text of lines 79-82 from the
    radius, the centre and the amenity types; [normalize_element] is the
    [map] callback of lines 88-98 (every property read can throw a
    TypeError, e.g. on a [null] element); [keep_place] is the [filter]
    callback of line 99; [queryOverpass_of_response] is the body of the
    [try] block with its [catch] (lines 85-104), applied to the completion
    of [await (await fetch(url, ...)).json()], which the caller supplies:
    the network and the Overpass service are outside the program.

    Theorems: a failed request or an unreadable response gives [[]]; every
    returned place has truthy coordinates; a place is named "Unknown" and
    typed "place" when its tags say nothing; a node on the equator or the
    prime meridian is dropped; one [null] element empties the whole result. *)

From S2P Require Import Prelude JsFloat Host JsValue.

Open Scope float_scope.

(** The place record of lines 91-98. *)
Record place := mkPlace {
  p_id : jsval;
  p_type : jsval;
  p_name : jsval;
  p_lat : jsval;
  p_lon : jsval;
  p_tags : jsval
}.

(** The place as the JavaScript object the code builds (key order kept). *)
Definition place_obj (p : place) : jsobj :=
  [("id", p_id p); ("type", p_type p); ("name", p_name p);
   ("lat", p_lat p); ("lon", p_lon p); ("tags", p_tags p)]%string.

Section Overpass.
Context `{JsHost}.

(** ** The query text (lines 79-82) *)

(** The template literal of line 80 for one amenity type [t]. *)
Definition typeFilter (radius lat lon : jsval) (t : string) : string :=
  let around := ("(around:" +:+ to_string radius +:+ "," +:+ to_string lat +:+ ","
                 +:+ to_string lon +:+ ")[amenity=" +:+ t +:+ "];")%string in
  ("node" +:+ around +:+ "way" +:+ around +:+ "relation" +:+ around)%string.

(** [const q = `[out:json][timeout:25];(${typeFilters});out center;`] with
    [typeFilters = types.map(...).join('')]. *)
Definition overpass_query (lat lon radius : jsval) (types : list string) : string :=
  ("[out:json][timeout:25];(" +:+ String.concat "" (map (typeFilter radius lat lon) types)
   +:+ ");out center;")%string.

Definition overpass_url : string := "https://overpass-api.de/api/interpreter".

(** ** The normaliser (lines 88-98) *)

(** [el.lat || (el.center && el.center.lat)], and the same for [lon]. *)
Definition coord_of (el : jsval) (k : string) : js jsval :=
  let? direct := get_prop el k in
  js_or direct (let? c := get_prop el "center" in js_and c (get_prop c k)).

Definition normalize_element (el : jsval) : js place :=
  let? latp := coord_of el "lat" in
  let? lonp := coord_of el "lon" in
  let? id := get_prop el "id" in
  let? tags := get_prop el "tags" in
  let? has_amenity := js_and tags (get_prop tags "amenity") in
  let? ty := (if truthy has_amenity then get_prop tags "amenity" else Ok (JString "place")) in
  let? nm0 := js_and tags (let? n := get_prop tags "name" in
                           js_or n (get_prop tags "official_name")) in
  let? nm := js_or nm0 (Ok (JString "Unknown")) in
  let? tg := js_or tags (Ok (JObject [])) in
  Ok (mkPlace id ty nm latp lonp tg).

(** [.filter(p => p.lat && p.lon)] *)
Definition keep_place (p : place) : bool := truthy (p_lat p) && truthy (p_lon p).

(** ** The request (lines 85-104) *)

(** [data] is the completion of [await (await fetch(url, ...)).json()]:
    [Err FetchFailed] when fetch rejects, [Err SyntaxError] when the body
    is not JSON. *)
Definition queryOverpass_of_response (data : js jsval) : list place :=
  rcatch
    (let? d := data in
     let? els := get_prop d "elements" in
     let? arr := js_or els (Ok (JArray [])) in
     match arr with
     | JArray xs => let? ps := rmap_list normalize_element xs in Ok (filter keep_place ps)
     | _ => Err TypeError
     end)
    (fun _ => []).

(** [queryOverpass(lat, lon, radius, types)] against an Overpass service,
    a function from the POSTed query text to the completion of the
    response's JSON. *)
Definition queryOverpass (service : string -> js jsval)
    (lat lon radius : jsval) (types : list string) : list place :=
  queryOverpass_of_response (service (overpass_query lat lon radius types)).

End Overpass.

(** ** Properties *)

Section OverpassFacts.
Context `{JsHost}.

Lemma get_prop_truthy v k : truthy v = true -> exists w, get_prop v k = Ok w.
Proof. destruct v; simpl; try done; eauto. Qed.

(** [v && v.k] never throws: the access happens only on a truthy [v]. *)
Lemma js_and_get_ok v k : exists w, js_and v (get_prop v k) = Ok w.
Proof.
  unfold js_and. destruct (truthy v) eqn:T; [|eauto].
  by apply get_prop_truthy.
Qed.

Lemma js_or_ok_ok a b : exists w, js_or a (Ok b) = Ok w.
Proof. unfold js_or. destruct (truthy a); eauto. Qed.

Lemma coord_of_object fs k : exists v, coord_of (JObject fs) k = Ok v.
Proof.
  unfold coord_of. rewrite get_prop_object. simpl. unfold js_or.
  destruct (truthy (obj_get fs k)); [eauto|].
  apply js_and_get_ok.
Qed.

(** Rewrite an [Ok]-completion obtained from a lemma and continue. *)
Ltac ok_step lem :=
  let w := fresh "w" in let E := fresh "E" in
  destruct lem as [w E]; rewrite E; simpl.

(** The normaliser never throws on an object. *)
Lemma normalize_object_ok fs : exists p, normalize_element (JObject fs) = Ok p.
Proof.
  unfold normalize_element.
  ok_step (coord_of_object fs "lat"). ok_step (coord_of_object fs "lon").
  rewrite ?get_prop_object. simpl.
  set (tags := obj_get fs "tags").
  destruct (js_and_get_ok tags "amenity") as [ha Eha]; rewrite Eha; simpl.
  assert (Hty : exists t, (if truthy ha then get_prop tags "amenity" else Ok (JString "place")) = Ok t).
  { destruct (truthy ha) eqn:Th; [|eauto].
    unfold js_and in Eha. destruct (truthy tags) eqn:Tt.
    - by apply get_prop_truthy.
    - injection Eha as <-. congruence. }
  destruct Hty as [t Et]; rewrite Et; simpl.
  assert (Hnm : exists n, js_and tags (let? n := get_prop tags "name" in
                          js_or n (get_prop tags "official_name")) = Ok n).
  { unfold js_and. destruct (truthy tags) eqn:Tt; [|eauto].
    destruct (get_prop_truthy tags "name" Tt) as [n En]; rewrite En; simpl.
    unfold js_or. destruct (truthy n); [eauto|]. by apply get_prop_truthy. }
  destruct Hnm as [n En]; rewrite En; simpl.
  ok_step (js_or_ok_ok n (JString "Unknown")). ok_step (js_or_ok_ok tags (JObject [])).
  eauto.
Qed.

Definition is_object (v : jsval) : Prop := exists fs, v = JObject fs.

(** C15: Functional behaviour on a well-formed response: when [elements] is an
    array of objects, the result is the normalised elements that pass the
    coordinate filter, in the service's order. *)
Lemma queryOverpass_objects d xs :
  get_prop d "elements" = Ok (JArray xs) -> Forall is_object xs ->
  exists ps, Forall2 (fun x p => normalize_element x = Ok p) xs ps /\
             queryOverpass_of_response (Ok d) = filter keep_place ps.
Proof.
  intros Hel Hobj. unfold queryOverpass_of_response. simpl. rewrite Hel. simpl.
  assert (Hmap : exists ps, rmap_list normalize_element xs = Ok ps).
  { clear Hel. induction Hobj as [|x xs Hx _ IH]; [simpl; eauto|].
    destruct Hx as [fs ->], IH as [ps IH]. cbn [rmap_list].
    destruct (normalize_object_ok fs) as [p Ep]; rewrite Ep, rbind_Ok, IH, rbind_Ok.
    eauto. }
  destruct Hmap as [ps Eps]. exists ps. split; [by apply rmap_list_Ok|].
  by rewrite Eps.
Qed.

(** C6: The working-set invariant of the data model: every place the query
    returns has truthy (present, non-zero, non-NaN) coordinates. *)
Lemma queryOverpass_coords data p :
  p ∈ queryOverpass_of_response data -> truthy (p_lat p) = true /\ truthy (p_lon p) = true.
Proof.
  unfold queryOverpass_of_response, rcatch.
  destruct data as [d|e]; simpl; [|set_solver].
  destruct (get_prop d "elements") as [els|e]; simpl; [|set_solver].
  unfold js_or. destruct (truthy els); simpl;
    [destruct els as [| | | | |xs|]; simpl; try set_solver | ].
  - destruct (rmap_list normalize_element xs); simpl; [|set_solver].
    intros Hin. apply list_elem_of_filter in Hin as [Hk _].
    unfold keep_place in Hk. by destruct (truthy (p_lat p)), (truthy (p_lon p)).
  - simpl. set_solver.
Qed.

(** C9: Transport failures, malformed bodies and responses without an
    [elements] array all end as the empty list, with no exception. *)
Lemma queryOverpass_failures data :
  (exists e, data = Err e) \/
  (exists d, data = Ok d /\ (d = JNull \/ d = JUndefined)) \/
  (exists d els, data = Ok d /\ get_prop d "elements" = Ok els /\
     (truthy els = false \/ (truthy els = true /\ ~ exists xs, els = JArray xs))) ->
  queryOverpass_of_response data = [].
Proof.
  intros [[e ->]|[[d [-> [->| ->]]]|[d [els [-> [Hel Hcase]]]]]]; try reflexivity.
  unfold queryOverpass_of_response. simpl. rewrite Hel. simpl. unfold js_or.
  destruct Hcase as [->|[-> Hn]]; [reflexivity|].
  destruct els; try reflexivity. exfalso. eauto.
Qed.

(** A zero coordinate without a [center] reads as [undefined]: [0] is
    falsy in [el.lat || ...] and [el.center] is absent. *)
Lemma coord_of_zero fs k :
  obj_get fs k = JNumber 0 -> obj_get fs "center" = JUndefined ->
  coord_of (JObject fs) k = Ok JUndefined.
Proof. intros Hz Hc. unfold coord_of. simpl. rewrite Hz, Hc. reflexivity. Qed.

(** The normalised place carries the coordinates [coord_of] computes. *)
Lemma normalize_coords el p :
  normalize_element el = Ok p ->
  coord_of el "lat" = Ok (p_lat p) /\ coord_of el "lon" = Ok (p_lon p).
Proof.
  unfold normalize_element. intros E.
  repeat (apply rbind_Ok_inv in E as [? [? E]]).
  injection E as <-; simpl; split; congruence.
Qed.

(** C13: a node lying on the equator or the prime meridian, without a
    [center], normalises without error but fails the coordinate filter:
    [0] is falsy. *)
Lemma zero_coordinate_dropped fs k :
  (k = "lat" \/ k = "lon")%string ->
  obj_get fs k = JNumber 0 -> obj_get fs "center" = JUndefined ->
  exists p, normalize_element (JObject fs) = Ok p /\ keep_place p = false.
Proof.
  intros Hk Hz Hc. destruct (normalize_object_ok fs) as [p Ep]. exists p. split; [done|].
  destruct (normalize_coords _ _ Ep) as [Ea Eo]. unfold keep_place.
  destruct Hk as [-> | ->]; rewrite (coord_of_zero fs _ Hz Hc) in *; simplify_eq.
  - by rewrite <- Ea.
  - rewrite <- Eo. simpl. by rewrite andb_false_r.
Qed.

(** C12: One [null] entry in [elements] (after well-formed ones) aborts the
    whole [map] with a TypeError, which the [catch] turns into [[]]: every
    other place of the response is lost. *)
Lemma null_element_empties d xs1 xs2 :
  get_prop d "elements" = Ok (JArray (xs1 ++ JNull :: xs2)) -> Forall is_object xs1 ->
  queryOverpass_of_response (Ok d) = [].
Proof.
  intros Hel Hobj. unfold queryOverpass_of_response. simpl. rewrite Hel. simpl.
  rewrite (rmap_list_Err _ xs1 JNull xs2 TypeError); [done| |done].
  eapply Forall_impl; [exact Hobj|]. intros x [fs ->]. apply normalize_object_ok.
Qed.

(** C14: Defaults of the normaliser: an element without tags is typed "place",
    named "Unknown", and gets [{}] as its tags. *)
Lemma normalize_no_tags fs :
  obj_get fs "tags" = JUndefined ->
  exists p, normalize_element (JObject fs) = Ok p /\
    p_type p = JString "place" /\ p_name p = JString "Unknown" /\ p_tags p = JObject [].
Proof.
  intros Ht. destruct (normalize_object_ok fs) as [p Ep]. exists p. split; [done|].
  unfold normalize_element in Ep.
  destruct (coord_of_object fs "lat") as [a Ea]; rewrite Ea in Ep.
  destruct (coord_of_object fs "lon") as [b Eb]; rewrite Eb in Ep.
  rewrite !get_prop_object, Ht in Ep. simpl in Ep. by injection Ep as <-.
Qed.

End OverpassFacts.

(** ** Runs *)

(** A node as Overpass returns it. *)
Definition demo_node (id lat lon : float) (name : string) : jsval :=
  JObject [("type", JString "node"); ("id", JNumber id); ("lat", JNumber lat); ("lon", JNumber lon);
           ("tags", JObject [("amenity", JString "hospital"); ("name", JString name)])]%string.

Definition demo_response (xs : list jsval) : jsval := JObject [("elements", JArray xs)]%string.

Definition demo_place : place :=
  mkPlace (JNumber 2) (JString "hospital") (JString "City Hospital") (JNumber 12.9720) (JNumber 77.5946)
    (JObject [("amenity", JString "hospital"); ("name", JString "City Hospital")]%string).

Lemma queryOverpass_objects_witness :
  exists ps, Forall2 (fun x p => normalize_element x = Ok p)
               [demo_node 1 12.9750 77.5946 "Clinic"; demo_node 2 12.9720 77.5946 "City Hospital"] ps /\
             queryOverpass_of_response
               (Ok (demo_response [demo_node 1 12.9750 77.5946 "Clinic";
                                   demo_node 2 12.9720 77.5946 "City Hospital"])) = filter keep_place ps.
Proof.
  apply queryOverpass_objects; [reflexivity|].
  repeat constructor; eexists; reflexivity.
Defined.

Lemma queryOverpass_coords_witness :
  truthy (p_lat demo_place) = true /\ truthy (p_lon demo_place) = true.
Proof.
  apply (queryOverpass_coords
           (Ok (demo_response [demo_node 2 12.9720 77.5946 "City Hospital"]))).
  vm_compute. constructor.
Defined.

Lemma queryOverpass_failures_witness :
  queryOverpass_of_response (Err FetchFailed) = [] /\
  queryOverpass_of_response (Ok (JObject [("remark", JString "timeout")]%string)) = [].
Proof.
  split; apply queryOverpass_failures; [left; eexists; reflexivity|].
  right; right. eexists _, JUndefined. split; [reflexivity|]. split; [reflexivity|]. by left.
Defined.

Lemma null_element_empties_witness :
  queryOverpass_of_response
    (Ok (demo_response [demo_node 1 12.9750 77.5946 "Clinic"; JNull;
                        demo_node 2 12.9720 77.5946 "City Hospital"])) = [].
Proof.
  apply (null_element_empties _ [demo_node 1 12.9750 77.5946 "Clinic"]
           [demo_node 2 12.9720 77.5946 "City Hospital"]); [reflexivity|].
  repeat constructor. eexists; reflexivity.
Defined.

Lemma zero_coordinate_dropped_witness :
  exists p, normalize_element
              (JObject [("id", JNumber 7); ("lat", JNumber 0); ("lon", JNumber 77.5946)]%string) = Ok p /\
            keep_place p = false.
Proof. apply (zero_coordinate_dropped _ "lat"); [left; reflexivity|reflexivity|reflexivity]. Defined.

Lemma normalize_no_tags_witness :
  exists p, normalize_element
              (JObject [("id", JNumber 7); ("lat", JNumber 12.9); ("lon", JNumber 77.5)]%string) = Ok p /\
    p_type p = JString "place" /\ p_name p = JString "Unknown" /\ p_tags p = JObject [].
Proof. apply normalize_no_tags. reflexivity. Defined.
