(* ===== verification/Nearest.v ===== *)
(** * Nearest resolver: [findNearestPlace] (src/health.js, lines 107-119)

    The [forEach] loop is a left fold over the places with the state
    [(best, bestDist)], starting from [(null, Infinity)]; a place replaces
    the current best only when its distance is strictly smaller
    ([d < bestDist]), so ties keep the first place and a NaN distance
    never wins.  The winner is copied with its rounded distance,
    [{ ...p, distance_m: Math.round(d) }].  The user is an object read with
    [user.lat] and [user.lon].

    Theorems: the refinement of the loop by the declarative specification
    "the first place of minimal distance among those nearer than
    Infinity" ([findNearestPlace_spec]); the empty and singleton cases of
    the spec's section 8; and the defect of the panic handler, which
    passes [userLatLng = {lat, lng}] so that [user.lon] is [undefined],
    every distance is NaN and the result is always [null]. *)

From S2P Require Import Prelude JsFloat IEEE Host JsValue Distance Overpass.

Open Scope float_scope.

Section Nearest.
Context `{JsHost}.

(** [distanceMeters(user.lat, user.lon, p.lat, p.lon)] (line 112) *)
Definition dist_to (user : jsobj) (p : place) : float :=
  distanceMeters (obj_get user "lat") (obj_get user "lon") (p_lat p) (p_lon p).

(** [{ ...p, distance_m: Math.round(d) }] (line 115) *)
Definition annotate (p : place) (d : float) : jsval :=
  JObject (obj_set (place_obj p) "distance_m" (JNumber (Math_round d))).

(** One iteration of the [forEach] callback (lines 111-117). *)
Definition nearest_step (user : jsobj) (st : jsval * float) (p : place) : jsval * float :=
  let d := dist_to user p in
  if d <? st.2 then (annotate p d, d) else st.

Definition findNearestPlace (user : jsobj) (places : list place) : jsval :=
  match places with
  | [] => JNull
  | _ => (foldl (nearest_step user) (JNull, infinity) places).1
  end.

End Nearest.

Section NearestFacts.
Context `{HL : HostLaws}.

(** The loop invariant: either no place so far is nearer than Infinity and
    the state is the initial one, or the state holds the first place of
    minimal distance among those seen, with its distance. *)
Definition nearest_inv (user : jsobj) (seen : list place) (st : jsval * float) : Prop :=
  (st = (JNull, infinity) /\ Forall (fun q => (dist_to user q <? infinity) = false) seen) \/
  (exists l1 p l2, seen = l1 ++ p :: l2 /\ (dist_to user p <? infinity) = true /\
     Forall (fun q => (dist_to user q <=? dist_to user p) = false) l1 /\
     Forall (fun q => (dist_to user q <? dist_to user p) = false) l2 /\
     st = (annotate p (dist_to user p), dist_to user p)).

Lemma nearest_inv_step user seen st x :
  nearest_inv user seen st -> nearest_inv user (seen ++ [x]) (nearest_step user st x).
Proof.
  unfold nearest_step. intros [[-> Hall]|(l1 & p & l2 & -> & Hp & H1 & H2 & ->)]; simpl.
  - destruct (dist_to user x <? infinity) eqn:Hx.
    + right. exists seen, x, []. repeat split; auto.
      eapply Forall_impl; [exact Hall|]. intros q Hq. by eapply ord_lt_ltb_false.
    + left. split; [done|]. apply Forall_app. auto.
  - destruct (dist_to user x <? dist_to user p) eqn:Hx.
    + right. exists (l1 ++ p :: l2), x, [].
      repeat split; auto.
      * by eapply ord_lt_trans.
      * apply Forall_app. split; [|constructor].
        -- eapply Forall_impl; [exact H1|]. intros q Hq. by eapply ord_lt_leb_false.
        -- by apply ord_lt_asym.
        -- eapply Forall_impl; [exact H2|]. intros q Hq. by eapply ord_lt_ltb_false.
    + right. exists l1, p, (l2 ++ [x]). rewrite <- app_assoc. simpl.
      repeat split; auto. apply Forall_app. auto.
Qed.

Lemma nearest_inv_foldl user l :
  nearest_inv user l (foldl (nearest_step user) (JNull, infinity) l).
Proof.
  induction l as [|x l IH] using rev_ind.
  - left. auto.
  - rewrite foldl_app. simpl. by apply nearest_inv_step.
Qed.

(** C3: refinement of the loop by the declarative nearest-place
    specification.  [findNearestPlace] returns [null] exactly when no
    place is nearer than Infinity (empty list, or every distance NaN or
    infinite); otherwise it returns the first place [p] of minimal
    distance: every place before [p] is strictly farther (or NaN), none
    after it is nearer, and [p] comes annotated with [Math.round] of its
    distance. *)
Theorem findNearestPlace_spec user places :
  (findNearestPlace user places = JNull /\
   Forall (fun q => (dist_to user q <? infinity) = false) places) \/
  (exists l1 p l2, places = l1 ++ p :: l2 /\ (dist_to user p <? infinity) = true /\
     Forall (fun q => (dist_to user q <=? dist_to user p) = false) l1 /\
     Forall (fun q => (dist_to user q <? dist_to user p) = false) l2 /\
     findNearestPlace user places = annotate p (dist_to user p)).
Proof.
  unfold findNearestPlace.
  destruct places as [|x l]; [left; split; [done|constructor]|].
  destruct (nearest_inv_foldl user (x :: l))
    as [[E Hall]|(l1 & p & l2 & Hpl & Hp & H1 & H2 & E)]; rewrite E; simpl.
  - by left.
  - right. exists l1, p, l2. done.
Qed.


(** Once every distance is NaN, the loop never leaves its initial state. *)
Lemma foldl_nearest_nan user l :
  Forall (fun q => dist_to user q = nan) l ->
  foldl (nearest_step user) (JNull, infinity) l = (JNull, infinity).
Proof.
  induction 1 as [|q l Hq _ IH]; [done|]. simpl.
  unfold nearest_step at 2. rewrite Hq, ltb_nan_l. exact IH.
Qed.

(** When every distance is NaN, no place is ever selected. *)
Lemma findNearestPlace_all_nan user l :
  Forall (fun q => dist_to user q = nan) l -> findNearestPlace user l = JNull.
Proof.
  intros Hn. destruct l as [|p ps]; [done|]. unfold findNearestPlace.
  by rewrite foldl_nearest_nan.
Qed.

(** [userLatLng] as the geolocation callback builds it (line 64). *)
Definition userLatLng_obj (lat lng : float) : jsobj :=
  [("lat", JNumber lat); ("lng", JNumber lng)]%string.

(** With [userLatLng] as the user, [user.lon] is [undefined] and every
    distance is NaN. *)
Lemma userLatLng_dists_nan lat lng places :
  Forall (fun q => dist_to (userLatLng_obj lat lng) q = nan) places.
Proof.
  apply Forall_forall. intros q _. unfold dist_to. apply distance_nan.
  right; left. reflexivity.
Qed.

(** C2: the panic handler calls [findNearestPlace(userLatLng, places)], but
    [userLatLng] has a [lng] property and no [lon]; [user.lon] is
    [undefined], every distance is NaN, no [d < bestDist] holds, and the
    result is [null] whatever the places are. *)
Theorem findNearestPlace_userLatLng_null lat lng places :
  findNearestPlace (userLatLng_obj lat lng) places = JNull.
Proof.
  apply findNearestPlace_all_nan, userLatLng_dists_nan.
Qed.

End NearestFacts.

(** ** Runs: the scenario of the spec's section 8 *)

Definition demo_user : jsobj := [("lat", JNumber 12.9716); ("lon", JNumber 77.5946)]%string.

Definition demo_place1 : place :=
  mkPlace (JNumber 1) (JString "clinic") (JString "Clinic") (JNumber 12.9750) (JNumber 77.5946) (JObject []).

Definition demo_place2 : place :=
  mkPlace (JNumber 2) (JString "hospital") (JString "City Hospital") (JNumber 12.9720) (JNumber 77.5946)
    (JObject []).


Lemma findNearestPlace_spec_witness :
  (findNearestPlace demo_user [demo_place1; demo_place2] = JNull /\
   Forall (fun q => (dist_to demo_user q <? infinity) = false) [demo_place1; demo_place2]) \/
  (exists l1 p l2, [demo_place1; demo_place2] = l1 ++ p :: l2 /\ (dist_to demo_user p <? infinity) = true /\
     Forall (fun q => (dist_to demo_user q <=? dist_to demo_user p) = false) l1 /\
     Forall (fun q => (dist_to demo_user q <? dist_to demo_user p) = false) l2 /\
     findNearestPlace demo_user [demo_place1; demo_place2] = annotate p (dist_to demo_user p)).
Proof. apply findNearestPlace_spec. Defined.

Lemma findNearestPlace_userLatLng_null_witness :
  findNearestPlace (userLatLng_obj 12.9716 77.5946) [demo_place1; demo_place2] = JNull.
Proof. apply findNearestPlace_userLatLng_null. Defined.
