(* ===== verification/Ranker.v ===== *)
(** * Proximity ranker: the sort of [findNearbyPlaces]
    (src/health.js, line 148)

    [places.sort((a,b) => distanceMeters(lat, lon, a.lat, a.lon) -
    distanceMeters(lat, lon, b.lat, b.lon))].  ECMAScript (2019 and later)
    requires [Array.prototype.sort] to be stable and, for a consistent
    comparator, to return the permutation that is sorted by it; the
    comparator's result is read through SortCompare, which maps NaN to
    [+0].  [array_sort] is a stable insertion sort on that reading
    ([x] goes after every element [y] with [compare(y, x) <= 0]).

    [SortContract] states what the language promises of a sort for a
    consistent comparator (permutation, sorted, stable); it determines
    the output, so for such comparators the insertion sort agrees with
    every conforming engine.  Whatever the comparator, the sort only
    reorders ([array_sort_perm]).  For the distance comparator the contract holds as
    soon as every distance is finite, because the sign of the rounded
    difference [d a - d b] is the sign of the comparison ([sub_pos_iff]). *)

From S2P Require Import Prelude JsFloat IEEE Host JsValue Distance Overpass Nearest.
From Stdlib Require Import Sorting.Sorted Permutation Lia.

Open Scope float_scope.

(** ** The sort of the language *)

Section ArraySort.
Context {A : Type}.

(** SortCompare(x, y): the comparator's value, NaN read as [+0]. *)
Definition sort_compare (cmp : A -> A -> float) (x y : A) : float :=
  let v := cmp x y in if is_nan v then 0 else v.

(** [x] is ordered after [y]: SortCompare(y, x) > 0 is false. *)
Fixpoint insert_by (cmp : A -> A -> float) (x : A) (l : list A) : list A :=
  match l with
  | [] => [x]
  | y :: ys => if 0 <? sort_compare cmp y x then x :: y :: ys else y :: insert_by cmp x ys
  end.

Definition array_sort (cmp : A -> A -> float) (l : list A) : list A :=
  foldl (fun acc x => insert_by cmp x acc) [] l.

End ArraySort.

(** ** Sorting by an integer key *)

Section KeySort.
Context {A : Type} (k : A -> Z).

Definition key_le (x y : A) : Prop := (k x <= k y)%Z.

(** What a sort promises for a comparator that orders by [k]: a
    permutation, ordered by [k], stable ([filter] by each key value keeps
    the input order). *)
Record SortContract (l out : list A) : Prop := {
  sc_perm : Permutation l out;
  sc_sorted : Sorted key_le out;
  sc_stable : forall z, filter (fun y => k y = z) out =
                        filter (fun y => k y = z) l
}.

Lemma key_le_strongly l : Sorted key_le l -> StronglySorted key_le l.
Proof. apply Sorted_StronglySorted. unfold key_le. intros ???. lia. Qed.

Fixpoint insert_key (x : A) (l : list A) : list A :=
  match l with
  | [] => [x]
  | y :: ys => if (k x <? k y)%Z then x :: y :: ys else y :: insert_key x ys
  end.

Definition sort_key (l : list A) : list A := foldl (fun acc x => insert_key x acc) [] l.

Lemma insert_key_perm x l : Permutation (insert_key x l) (x :: l).
Proof.
  induction l as [|y l IH]; simpl; [done|].
  destruct (k x <? k y)%Z; [done|].
  rewrite IH. apply perm_swap.
Qed.

Lemma sort_key_perm l : Permutation (sort_key l) l.
Proof.
  unfold sort_key. induction l as [|x l IH] using rev_ind; [done|].
  rewrite foldl_app. simpl. rewrite insert_key_perm, IH.
  apply Permutation_cons_append.
Qed.

Lemma insert_key_sorted x l : Sorted key_le l -> Sorted key_le (insert_key x l).
Proof.
  induction 1 as [|y l Hs IH Hhd]; simpl; [repeat constructor|].
  unfold key_le in *.
  destruct (Z.ltb_spec (k x) (k y)).
  - constructor; [by constructor|]. constructor. lia.
  - constructor; [done|]. destruct l as [|z l]; simpl; [constructor; lia|].
    inversion Hhd; subst. destruct (k x <? k z)%Z; constructor; lia.
Qed.

Lemma sort_key_sorted l : Sorted key_le (sort_key l).
Proof.
  unfold sort_key. induction l as [|x l IH] using rev_ind; [constructor|].
  rewrite foldl_app. simpl. by apply insert_key_sorted.
Qed.

(** Inserting into a sorted list puts [x] after every element of key at
    most [k x] and before the others. *)
Lemma insert_key_split x l :
  Sorted key_le l ->
  exists l1 l2, l = l1 ++ l2 /\ insert_key x l = l1 ++ x :: l2 /\
    Forall (fun y => (k y <= k x)%Z) l1 /\ Forall (fun y => (k x < k y)%Z) l2.
Proof.
  intros Hs. apply key_le_strongly in Hs.
  induction Hs as [|y l Hs IH Hall]; simpl.
  - exists [], []. auto.
  - destruct (Z.ltb_spec (k x) (k y)).
    + exists [], (y :: l). repeat split; auto. constructor; [done|].
      eapply Forall_impl; [exact Hall|]. unfold key_le. intros z Hz. lia.
    + destruct IH as (l1 & l2 & -> & -> & H1 & H2).
      exists (y :: l1), l2. repeat split; auto.
Qed.

Lemma insert_key_filter x l z :
  Sorted key_le l ->
  filter (fun y => k y = z) (insert_key x l) =
  filter (fun y => k y = z) l ++ filter (fun y => k y = z) [x].
Proof.
  intros Hs. destruct (insert_key_split x l Hs) as (l1 & l2 & -> & -> & H1 & H2).
  rewrite !filter_app, filter_cons, <- app_assoc. f_equal.
  rewrite filter_cons, filter_nil. case_decide; [subst z|by rewrite app_nil_r]. simpl.
  rewrite filter_Forall_nil; [done|]. eapply Forall_impl; [exact H2|]. simpl. lia.
Qed.

Lemma sort_key_stable l z :
  filter (fun y => k y = z) (sort_key l) = filter (fun y => k y = z) l.
Proof.
  induction l as [|x l IH] using rev_ind; [done|].
  unfold sort_key. rewrite foldl_app. cbn [foldl]. fold (sort_key l).
  rewrite insert_key_filter by apply sort_key_sorted. by rewrite IH, filter_app.
Qed.

Lemma sort_key_contract l : SortContract l (sort_key l).
Proof.
  split; [symmetry; apply sort_key_perm|apply sort_key_sorted|apply sort_key_stable].
Qed.



(** The head of the sorted list has the least key. *)
Lemma sort_key_head l x rest :
  sort_key l = x :: rest -> forall y, y ∈ l -> (k x <= k y)%Z.
Proof.
  intros E y Hy. rewrite <- (sort_key_perm l), E in Hy.
  pose proof (key_le_strongly _ (sort_key_sorted l)) as Hs. rewrite E in Hs.
  inversion Hs as [|? ? _ Hall]; subst. apply elem_of_cons in Hy as [->|Hy]; [lia|].
  rewrite Forall_forall in Hall. by apply Hall.
Qed.

(** The head of the sorted list is the first element of least key. *)
Lemma sort_key_head_first l1 q l2 x rest :
  Forall (fun y => (k q < k y)%Z) l1 -> Forall (fun y => (k q <= k y)%Z) l2 ->
  sort_key (l1 ++ q :: l2) = x :: rest -> x = q.
Proof.
  intros H1 H2 E.
  assert (Hx : x ∈ l1 ++ q :: l2) by (rewrite <- (sort_key_perm (l1 ++ q :: l2)), E; set_solver).
  assert (Hxq : k x = k q).
  { pose proof (sort_key_head _ _ _ E q ltac:(set_solver)).
    rewrite elem_of_app, elem_of_cons in Hx. rewrite !Forall_forall in H1, H2.
    destruct Hx as [Hx|[->|Hx]]; [specialize (H1 _ Hx)|done|specialize (H2 _ Hx)]; lia. }
  pose proof (sort_key_stable (l1 ++ q :: l2) (k q)) as Hst. rewrite E in Hst.
  rewrite filter_app, (filter_Forall_nil _ l1), !filter_cons in Hst.
  - rewrite !decide_True in Hst by done. by injection Hst.
  - eapply Forall_impl; [exact H1|]. simpl. lia.
Qed.

End KeySort.

(** ** The language's sort with a consistent comparator *)

(** Whatever the comparator, the sort only reorders. *)
Lemma insert_by_perm {A} (cmp : A -> A -> float) (x : A) (l : list A) :
  Permutation (insert_by cmp x l) (x :: l).
Proof.
  induction l as [|y l IH]; simpl; [done|].
  case_match; [done|]. rewrite IH. apply perm_swap.
Qed.

Lemma array_sort_perm {A} (cmp : A -> A -> float) (l : list A) : Permutation (array_sort cmp l) l.
Proof.
  unfold array_sort. induction l as [|x l IH] using rev_ind; [done|].
  rewrite foldl_app. simpl. rewrite insert_by_perm, IH. apply Permutation_cons_append.
Qed.

Lemma insert_by_key {A} (cmp : A -> A -> float) (k : A -> Z) (x : A) (l : list A) :
  (forall y, y ∈ l -> (0 <? sort_compare cmp y x) = (k x <? k y)%Z) ->
  insert_by cmp x l = insert_key k x l.
Proof.
  induction l as [|y l IH]; simpl; intros H; [done|].
  rewrite H by set_solver. destruct (k x <? k y)%Z; [done|].
  f_equal. apply IH. set_solver.
Qed.

(** A comparator that, on the elements of [l], is positive exactly when
    the first argument has the larger key makes [array_sort] the sort by
    key. *)
Lemma array_sort_key {A} (cmp : A -> A -> float) (k : A -> Z) (l : list A) :
  (forall x y, x ∈ l -> y ∈ l -> (0 <? sort_compare cmp x y) = (k y <? k x)%Z) ->
  array_sort cmp l = sort_key k l.
Proof.
  unfold array_sort, sort_key. induction l as [|x l IH] using rev_ind; intros H; [done|].
  rewrite !foldl_app. simpl. rewrite IH by set_solver.
  apply insert_by_key. intros y Hy. apply H; [|set_solver].
  fold (sort_key k l) in Hy. rewrite (sort_key_perm k l) in Hy. set_solver.
Qed.

(** ** The ranking of [findNearbyPlaces] (line 148) *)

Section Nearby.
Context `{JsHost}.

(** [(a,b) => distanceMeters(lat, lon, a.lat, a.lon) - distanceMeters(lat, lon, b.lat, b.lon)] *)
Definition distance_cmp (lat lon : jsval) (a b : place) : float :=
  distanceMeters lat lon (p_lat a) (p_lon a) - distanceMeters lat lon (p_lat b) (p_lon b).

(** [places.sort(distance_cmp)] *)
Definition rank_places (lat lon : jsval) (places : list place) : list place :=
  array_sort (distance_cmp lat lon) places.

(** The integer key of a place's distance. *)
Definition dist_key (lat lon : jsval) (p : place) : Z :=
  fkey (distanceMeters lat lon (p_lat p) (p_lon p)).

End Nearby.

Section NearbyFacts.
Context `{JsHost}.

Definition finite_dists (lat lon : jsval) (places : list place) : Prop :=
  Forall (fun p => is_finite (distanceMeters lat lon (p_lat p) (p_lon p)) = true) places.

(** With finite distances the comparator is consistent with the key. *)
Lemma rank_places_sort_key lat lon places :
  finite_dists lat lon places ->
  rank_places lat lon places = sort_key (dist_key lat lon) places.
Proof.
  intros Hf. apply array_sort_key. intros x y Hx Hy.
  unfold finite_dists in Hf. rewrite Forall_forall in Hf. pose proof (Hf x Hx) as Fx. pose proof (Hf y Hy) as Fy.
  unfold sort_compare, distance_cmp, dist_key.
  destruct (sub_fkey_sign _ _ Fx Fy) as [Hn _]. rewrite is_nan_false by done.
  rewrite sub_pos_iff, ltb_fkey by auto with tour. done.
Qed.

(** A float comparison [d q <=? d p] that fails on finite distances is a
    strict key inequality, and likewise for [<?]. *)
Lemma finite_leb_false_key a b :
  is_finite a = true -> is_finite b = true -> (a <=? b) = false -> (fkey b < fkey a)%Z.
Proof.
  intros Ha Hb E. rewrite leb_fkey in E by auto with tour. by apply Z.leb_gt in E.
Qed.

Lemma finite_ltb_false_key a b :
  is_finite a = true -> is_finite b = true -> (a <? b) = false -> (fkey b <= fkey a)%Z.
Proof.
  intros Ha Hb E. rewrite ltb_fkey in E by auto with tour. by apply Z.ltb_ge in E.
Qed.

End NearbyFacts.

Section RankTheorems.
Context `{HL : HostLaws}.

(** C4: when every distance is finite, the sort of line 148 keeps what the
    language promises: the result is a permutation of the places, ordered
    by distance, and places at the same distance keep the service's order. *)
Theorem rank_places_contract lat lon places :
  finite_dists lat lon places ->
  SortContract (dist_key lat lon) places (rank_places lat lon places).
Proof.
  intros Hf. rewrite rank_places_sort_key by done. apply sort_key_contract.
Qed.

(** C5: the first entry of the ranked list, the one labelled "(Nearest)"
    (lines 182-185), is the place [findNearestPlace] picks for a user at the
    same position: both are the first place of least distance. *)
Theorem ranked_head_is_nearest user places p rest :
  finite_dists (obj_get user "lat") (obj_get user "lon") places ->
  rank_places (obj_get user "lat") (obj_get user "lon") places = p :: rest ->
  findNearestPlace user places = annotate p (dist_to user p).
Proof.
  intros Hf E. rewrite rank_places_sort_key in E by done.
  unfold findNearestPlace. destruct places as [|x l]; [done|].
  destruct (nearest_inv_foldl user (x :: l))
    as [[E' Hall]|(l1 & q & l2 & Hpl & Hq & H1 & H2 & E')]; rewrite E'; simpl.
  - exfalso. inversion Hf as [|? ? Fx _]; inversion Hall as [|? ? Hx _]; subst.
    unfold dist_to in Hx. by rewrite finite_lt_infinity in Hx.
  - rewrite Hpl in E, Hf. unfold finite_dists in Hf.
    apply Forall_app in Hf as [Hf1 Hf2]. apply Forall_cons in Hf2 as [Fq Hf2].
    unfold dist_to in *. apply sort_key_head_first in E as ->; [done| |]; unfold dist_key.
    + rewrite Forall_forall in Hf1, H1 |- *. intros y Hy.
      apply finite_leb_false_key; auto.
    + rewrite Forall_forall in Hf2, H2 |- *. intros y Hy.
      apply finite_ltb_false_key; auto.
Qed.

End RankTheorems.

(** ** Runs: the scenario of the spec's section 8 *)

Lemma demo_finite :
  finite_dists (obj_get demo_user "lat") (obj_get demo_user "lon") [demo_place1; demo_place2].
Proof. repeat constructor; vm_compute; reflexivity. Qed.

Lemma rank_places_contract_witness :
  finite_dists (obj_get demo_user "lat") (obj_get demo_user "lon") [demo_place1; demo_place2] /\
  SortContract (dist_key (obj_get demo_user "lat") (obj_get demo_user "lon")) [demo_place1; demo_place2]
    (rank_places (obj_get demo_user "lat") (obj_get demo_user "lon") [demo_place1; demo_place2]).
Proof.
  split; [exact demo_finite|]. apply rank_places_contract. exact demo_finite.
Defined.

(** The ranked order is [[id 2; id 1]], and its head is the nearest place. *)
Lemma ranked_head_is_nearest_witness :
  rank_places (obj_get demo_user "lat") (obj_get demo_user "lon") [demo_place1; demo_place2] =
    [demo_place2; demo_place1] /\
  findNearestPlace demo_user [demo_place1; demo_place2] = annotate demo_place2 (dist_to demo_user demo_place2).
Proof.
  split; [vm_compute; reflexivity|].
  apply (ranked_head_is_nearest _ _ _ [demo_place1]); [exact demo_finite|vm_compute; reflexivity].
Defined.

