(* ===== verification/AlertServer.v ===== *)
(** * Alert server: [POST /api/send-alert] (src/healthser.js, lines 9-35)

    The handler builds [alert = { timestamp: now, ...req.body }], reads the
    array of earlier alerts from [alerts.json] (no file: [[]]; a file that
    is not JSON: [[]], the [catch] of lines 23-25), pushes the alert and
    writes [JSON.stringify(arr, null, 2)] back, then answers
    [{ status: 'ok', message: 'Alert received on server' }].

    The file is modelled by what [JSON.parse] reads back from it: either a
    value, or text that does not parse.  What the handler writes is the
    value [JSON.stringify] then [JSON.parse] turn [arr] into
    ([json_roundtrip]: properties holding [undefined] are dropped, array
    holes and non-finite numbers become [null], [-0] becomes [0]; the
    indentation argument changes only white space).  The request body is the
    value [express.json()] parsed.  [new Date().toISOString()] is the
    parameter [now] of each request; [console.log] is output only.  When
    [arr.push] throws (the file holds JSON that is not an array), Express
    answers with its default error page, [RespServerError], and nothing is
    written.

    Theorems: the write is idempotent as JSON ([json_roundtrip_idem]); a
    request appends exactly one alert and keeps every earlier one; over any
    sequence of requests the log is the earlier log followed by the alerts
    in arrival order; a file holding a JSON value that is not an array
    makes every later request fail; a [timestamp] in the body replaces the
    server's. *)

From S2P Require Import Prelude JsFloat Host JsValue.

Open Scope float_scope.

(** ** JSON.parse(JSON.stringify(v)) *)

Fixpoint json_roundtrip (v : jsval) : jsval :=
  match v with
  | JNumber n => if is_finite n then JNumber (if is_zero n then 0 else n) else JNull
  | JArray xs =>
      JArray (List.map (fun x => match x with JUndefined => JNull | _ => json_roundtrip x end) xs)
  | JObject fs =>
      JObject (List.flat_map (fun kv => match kv with
                                        | (_, JUndefined) => []
                                        | (k, w) => [(k, json_roundtrip w)]
                                        end) fs)
  | _ => v
  end.

(** An array element after the round trip ([undefined] is written [null]). *)
Definition json_elem (x : jsval) : jsval :=
  match x with JUndefined => JNull | _ => json_roundtrip x end.

(** A property after the round trip (dropped when it holds [undefined]). *)
Definition json_prop (kv : string * jsval) : list (string * jsval) :=
  match kv with (_, JUndefined) => [] | (k, w) => [(k, json_roundtrip w)] end.

(** ** The alerts file and the handler *)

Inductive alerts_file : Type :=
| FJson (v : jsval)   (* the file parses as [v] *)
| FGarbage.           (* [JSON.parse] throws a SyntaxError *)

(** [None]: [fs.existsSync(file)] is false. *)
Abbreviation fs_state := (option alerts_file).

Inductive response : Type :=
| RespJson (status : Z) (body : jsval)
| RespServerError.

(** [{ timestamp: new Date().toISOString(), ...req.body }] (lines 11-14) *)
Definition alert_of (now : string) (body : jsval) : jsobj :=
  obj_spread [("timestamp", JString now)]%string body.

(** [let arr = []; if (exists) try { arr = JSON.parse(raw) } catch { arr = [] }]
    (lines 18-26) *)
Definition read_alerts (f : fs_state) : jsval :=
  match f with
  | None => JArray []
  | Some (FJson v) => v
  | Some FGarbage => JArray []
  end.

Definition ok_body : jsval :=
  JObject [("status", JString "ok"); ("message", JString "Alert received on server")]%string.

(** The handler of lines 10-35: the new file and the response. *)
Definition send_alert (now : string) (body : jsval) (f : fs_state) : fs_state * response :=
  let alert := JObject (alert_of now body) in
  match read_alerts f with
  | JArray xs => (Some (FJson (json_roundtrip (JArray (xs ++ [alert])))), RespJson 200 ok_body)
  | _ => (f, RespServerError)
  end.

(** A sequence of requests [(now, body)], served one after the other
    (Node runs each synchronous handler to completion). *)
Fixpoint serve (reqs : list (string * jsval)) (f : fs_state) : fs_state * list response :=
  match reqs with
  | [] => (f, [])
  | (now, body) :: rs =>
      let '(f', r) := send_alert now body f in
      let '(f'', rs') := serve rs f' in (f'', r :: rs')
  end.

(** The alert list a file holds, when it is one the handler can push to. *)
Definition log_of (f : fs_state) : option (list jsval) :=
  match read_alerts f with JArray xs => Some xs | _ => None end.

(** The record the file keeps of one request. *)
Definition alert_record (r : string * jsval) : jsval := json_roundtrip (JObject (alert_of r.1 r.2)).

(** ** Facts about the round trip *)

Lemma json_roundtrip_array xs : json_roundtrip (JArray xs) = JArray (map json_elem xs).
Proof. reflexivity. Qed.

Lemma json_roundtrip_object fs : json_roundtrip (JObject fs) = JObject (List.flat_map json_prop fs).
Proof. reflexivity. Qed.

Lemma json_roundtrip_defined v : v <> JUndefined -> json_roundtrip v <> JUndefined.
Proof. destruct v; simpl; try done. by destruct (is_finite n). Qed.

Lemma json_elem_defined v : v <> JUndefined -> json_elem v = json_roundtrip v.
Proof. by destruct v. Qed.

Lemma json_number_idem n : json_roundtrip (json_roundtrip (JNumber n)) = json_roundtrip (JNumber n).
Proof.
  simpl. destruct (is_finite n) eqn:Hf; [|done]. simpl.
  destruct (is_zero n) eqn:Hz; [done|]. by rewrite Hf, Hz.
Qed.

Lemma undefined_or_defined v : v = JUndefined \/ v <> JUndefined.
Proof. destruct v; [left|right..]; done. Qed.

Lemma json_prop_defined k w :
  w <> JUndefined -> json_prop (k, w) = [(k, json_roundtrip w)].
Proof. by destruct w. Qed.

Lemma flat_map_json_prop_idem fs :
  Forall (fun kv => json_roundtrip (json_roundtrip kv.2) = json_roundtrip kv.2) fs ->
  List.flat_map json_prop (List.flat_map json_prop fs) = List.flat_map json_prop fs.
Proof.
  induction 1 as [|[k w] fs Hw _ IH]; [done|]. simpl in Hw.
  destruct (undefined_or_defined w) as [->|Hd]; [exact IH|].
  cbn [List.flat_map]. rewrite json_prop_defined by done. cbn [List.flat_map app].
  rewrite json_prop_defined by by apply json_roundtrip_defined. cbn [app]. by rewrite Hw, IH.
Qed.

(** Reading a property of [{ ...acc, ...ps }] when [ps] has distinct keys. *)
Lemma obj_get_spread ps acc k :
  NoDup ps.*1 ->
  obj_get (foldl (fun acc kv => obj_set acc kv.1 kv.2) acc ps) k =
  if bool_decide (k ∈ ps.*1) then obj_get ps k else obj_get acc k.
Proof.
  revert acc. induction ps as [|[k' v'] ps IH]; intros acc Hnd; simpl; [done|].
  apply NoDup_cons in Hnd as [Hk' Hnd]. rewrite IH by done.
  destruct (decide (k = k')) as [->|Hne].
  - rewrite bool_decide_false by done. rewrite !bool_decide_true by set_solver.
    apply obj_get_set_eq.
  - rewrite (bool_decide_false (k = k')) by done.
    case_bool_decide; case_bool_decide; try done; try set_solver. by apply obj_get_set_ne.
Qed.

(** Writing back what the handler read changes nothing: the round trip
    is idempotent. *)
Lemma json_roundtrip_idem v : json_roundtrip (json_roundtrip v) = json_roundtrip v.
Proof.
  induction v as [| | | n | | xs IH | fs IH] using jsval_nested_ind; try done.
  - apply json_number_idem.
  - rewrite !json_roundtrip_array, map_map. f_equal.
    induction IH as [|x xs Hx _ IHxs]; [done|]. cbn [map]. f_equal; [|done].
    destruct (undefined_or_defined x) as [->|Hd]; [done|].
    rewrite (json_elem_defined x Hd). rewrite json_elem_defined by by apply json_roundtrip_defined.
    exact Hx.
  - rewrite !json_roundtrip_object. f_equal. by apply flat_map_json_prop_idem.
Qed.

Lemma json_elem_record r : json_elem (alert_record r) = alert_record r.
Proof.
  unfold alert_record. rewrite json_elem_defined by by apply json_roundtrip_defined.
  apply json_roundtrip_idem.
Qed.







(** ** Properties of the handler *)

Section ServerTheorems.


(** C17: one request.  When the file is missing, unparsable or holds an
    array, the handler answers 200 with [ok_body] and writes the earlier
    alerts (as JSON reads them back) followed by the new alert; an
    unparsable file is replaced by the new alert alone. *)
Theorem send_alert_push now body f xs :
  log_of f = Some xs ->
  send_alert now body f =
    (Some (FJson (JArray (map json_elem xs ++ [alert_record (now, body)]))), RespJson 200 ok_body).
Proof.
  unfold log_of, send_alert. destruct (read_alerts f); intros E; try done. injection E as <-.
  rewrite json_roundtrip_array, map_app. reflexivity.
Qed.

Lemma send_alert_log now body f xs :
  log_of f = Some xs ->
  log_of (send_alert now body f).1 = Some (map json_elem xs ++ [alert_record (now, body)]) /\
  (send_alert now body f).2 = RespJson 200 ok_body.
Proof.
  intros Hf. unfold log_of in Hf. unfold send_alert. destruct (read_alerts f); try done.
  injection Hf as <-. rewrite json_roundtrip_array, map_app. split; reflexivity.
Qed.

(** C8: the log is append-only.  From a file the handler can push to whose
    alerts are already as JSON reads them back (every file the handler
    wrote), any sequence of requests answers 200 to each, and the file
    then holds the earlier alerts followed by one record per request in
    arrival order. *)
Theorem serve_log reqs f xs :
  log_of f = Some xs -> map json_elem xs = xs ->
  log_of (serve reqs f).1 = Some (xs ++ map alert_record reqs) /\
  (serve reqs f).2 = map (fun _ => RespJson 200 ok_body) reqs.
Proof.
  revert f xs. induction reqs as [|[now body] rs IH]; intros f xs Hf Hn; simpl.
  - by rewrite app_nil_r.
  - destruct (send_alert_log now body f xs Hf) as [Hf' Hr]. rewrite Hn in Hf'.
    destruct (send_alert now body f) as [f' r]. simpl in Hf', Hr. subst r.
    destruct (IH f' _ Hf') as [Hl Hrs].
    { rewrite map_app, Hn. cbn [map]. by rewrite json_elem_record. }
    destruct (serve rs f') as [f'' rs']. simpl in *. rewrite Hl, <- app_assoc. by subst.
Qed.

(** C18: a file that parses as a JSON value other than an array is never
    repaired: every later request fails with a server error and the file
    is left as it is (the [catch] resets only unparsable text). *)
Theorem serve_poisoned reqs f :
  log_of f = None -> serve reqs f = (f, map (fun _ => RespServerError) reqs).
Proof.
  intros Hf. induction reqs as [|[now body] rs IH]; [done|]. simpl.
  assert (E : send_alert now body f = (f, RespServerError)).
  { unfold log_of, send_alert in *. by destruct (read_alerts f). }
  by rewrite E, IH.
Qed.

(** C19: the spread [...req.body] comes after [timestamp]: when the body
    (with distinct keys, as JSON.parse builds it) has a [timestamp]
    property, the stored alert carries the client's value; otherwise the
    server's clock. *)
Theorem alert_timestamp now body :
  NoDup (own_props body).*1 ->
  obj_get (alert_of now body) "timestamp" =
    if bool_decide ("timestamp"%string ∈ (own_props body).*1)
    then obj_get (own_props body) "timestamp" else JString now.
Proof.
  intros Hnd. unfold alert_of, obj_spread. rewrite obj_get_spread by done.
  case_bool_decide; [done|]. reflexivity.
Qed.

End ServerTheorems.

(** ** Runs *)

Definition demo_body : jsval :=
  JObject [("user", JObject [("lat", JNumber 12.9716); ("lon", JNumber 77.5946)]);
           ("nearest_place", JNull); ("note", JString "Panic button pressed - demo alert")]%string.

Lemma send_alert_push_witness :
  send_alert "2026-01-01T00:00:00.000Z" demo_body (Some FGarbage) =
    (Some (FJson (JArray [alert_record ("2026-01-01T00:00:00.000Z", demo_body)])), RespJson 200 ok_body).
Proof. apply (send_alert_push _ _ _ []). reflexivity. Defined.

Lemma serve_log_witness :
  log_of (serve [("t1", demo_body); ("t2", demo_body)]%string None).1 =
    Some (map alert_record [("t1", demo_body); ("t2", demo_body)]%string) /\
  (serve [("t1", demo_body); ("t2", demo_body)]%string None).2 = [RespJson 200 ok_body; RespJson 200 ok_body].
Proof.
  exact (serve_log [("t1", demo_body); ("t2", demo_body)]%string None [] eq_refl eq_refl).
Defined.

Lemma serve_poisoned_witness :
  serve [("t1", demo_body)]%string (Some (FJson (JObject []))) =
    (Some (FJson (JObject [])), [RespServerError]).
Proof. apply serve_poisoned. reflexivity. Defined.

Lemma alert_timestamp_witness :
  obj_get (alert_of "server-time" (JObject [("timestamp", JString "forged"); ("note", JNull)]%string))
    "timestamp" = JString "forged".
Proof.
  rewrite alert_timestamp; [reflexivity|].
  cbn. repeat constructor; set_solver.
Defined.

