(* ===== verification/App.v ===== *)
(** * Page controller: the handlers of src/health.js (lines 7-76, 131-187)
    and the system they drive

    The page is single-threaded: each handler runs to its first [await]
    (or to its end) without interruption, and an [await] on the network
    or on the geolocation service leaves a pending task that completes
    later, in any order.  [page] holds the program's global state (the
    variables [userLatLng] and [userMarker], the map's view and place
    markers, the contents of [#loc] and [#placesList], the [alert]s shown)
    together with the pending tasks and the alert server's file
    (AlertServer.v), so that a panic press is followed from the button to
    the record the server writes.

    [step] is one event: a click, or the completion of the pending task
    number [i].  A completion carries what the outside world answered: the
    position (or a denial), the Overpass service (a function from the
    query text to the completion of [resp.json()]), and, for the alert
    POST, the clock and whether the request reached the server.  [step]
    returns [None] for an event that cannot happen in the state (no such
    task, or a click on a button that is not displayed).  An alert POST and
    the server's handling of it are one step, which also makes [alerts]
    grow: the server's other clients are not modelled.

    Rendering is kept as data: [#loc] as [loc_view], [#placesList] as
    [list_view] with one [entry] per [li], a Leaflet marker as its
    position and popup.  Leaflet's tiles and the HTML text are not
    modelled. *)

From S2P Require Import Prelude JsFloat IEEE Host JsValue Distance Overpass Nearest Ranker AlertServer.

Open Scope float_scope.

(** ** State *)

(** [#loc] (lines 56, 58, 65, 74). *)
Inductive loc_view : Type :=
| LocBlank
| LocDetecting
| LocUnsupported
| LocShown (lat lng accuracy : float)
| LocDenied.

(** One [li] of [#placesList] (lines 155-180): the place, its rounded
    distance, and the position its button's closure captured. *)
Record entry := mkEntry {
  e_place : place;
  e_dist : float;
  e_lat : float;
  e_lon : float
}.

(** [#placesList] (lines 132, 143, 147-186). *)
Inductive list_view : Type :=
| ListBlank
| ListSearching
| ListNone
| ListEntries (es : list entry).

(** A place marker: position, popup fields, and whether it is the one
    labelled "(Nearest)" with its popup opened (lines 152-153, 182-185). *)
Record marker := mkMarker {
  mk_lat : jsval;
  mk_lon : jsval;
  mk_name : jsval;
  mk_type : jsval;
  mk_dist : float;
  mk_nearest : bool
}.

(** The messages of [alert(...)]; [data.message || 'ok'] is kept. *)
Inductive alert_msg : Type :=
| AlertNoLocation                 (* line 28 *)
| AlertPanicSent (msg : jsval)    (* line 48 *)
| AlertPanicError                 (* line 51 *)
| AlertSent (msg : jsval)         (* line 173 *)
| AlertSendError.                 (* line 176 *)

(** What an [await] is waiting for. *)
Inductive task : Type :=
| TGeo                        (* getCurrentPosition (line 61) *)
| TNearby (lat lon : float)   (* findNearbyPlaces awaiting queryOverpass (line 134) *)
| TPanic (lat lng : float).   (* the panic handler awaiting queryOverpass (line 32) *)

Record page := mkPage {
  user_latlng : option (float * float);
  user_marker : option (float * float);
  view : float * float * Z;
  loc : loc_view;
  places_list : list_view;
  markers : list marker;
  alerts : list alert_msg;
  pending : list task;
  server : fs_state
}.

(** How the outside world completes a task. *)
Inductive completion : Type :=
| CGeoOk (lat lng accuracy : float)
| CGeoErr
| CQuery (service : string -> js jsval) (now : string) (post_ok : bool).

Inductive event : Type :=
| EvRefresh
| EvPanic
| EvSend (j : nat) (now : string) (post_ok : bool)
| EvComplete (i : nat) (c : completion).

Section Controller.
Context `{JsHost}.
(** [navigator.geolocation] is present. *)
Variable has_geolocation : bool.

Definition set_loc (l : loc_view) (s : page) : page :=
  mkPage (user_latlng s) (user_marker s) (view s) l (places_list s) (markers s) (alerts s) (pending s) (server s).
Definition set_list (l : list_view) (s : page) : page :=
  mkPage (user_latlng s) (user_marker s) (view s) (loc s) l (markers s) (alerts s) (pending s) (server s).
Definition set_markers (m : list marker) (s : page) : page :=
  mkPage (user_latlng s) (user_marker s) (view s) (loc s) (places_list s) m (alerts s) (pending s) (server s).
Definition add_alert (a : alert_msg) (s : page) : page :=
  mkPage (user_latlng s) (user_marker s) (view s) (loc s) (places_list s) (markers s) (alerts s ++ [a]) (pending s) (server s).
Definition add_task (t : task) (s : page) : page :=
  mkPage (user_latlng s) (user_marker s) (view s) (loc s) (places_list s) (markers s) (alerts s) (pending s ++ [t]) (server s).
Definition set_pending (ts : list task) (s : page) : page :=
  mkPage (user_latlng s) (user_marker s) (view s) (loc s) (places_list s) (markers s) (alerts s) ts (server s).
Definition set_server (f : fs_state) (s : page) : page :=
  mkPage (user_latlng s) (user_marker s) (view s) (loc s) (places_list s) (markers s) (alerts s) (pending s) f.

(** ** Handlers *)

(** [detectLocationAndShow()] up to its callbacks (lines 55-61). *)
Definition detectLocationAndShow (s : page) : page :=
  let s := set_loc LocDetecting s in
  if has_geolocation then add_task TGeo s else set_loc LocUnsupported s.

(** The page as loaded: [initMap()] then [detectLocationAndShow()]
    (lines 7-16). *)
Definition load_page : page :=
  detectLocationAndShow
    (mkPage None None (20.5937, 78.9629, 5%Z) LocBlank ListBlank [] [] [] None).

(** [findNearbyPlaces(lat, lon)] up to its [await] (lines 131-134). *)
Definition findNearbyPlaces_start (lat lon : float) (s : page) : page :=
  add_task (TNearby lat lon) (set_list ListSearching s).

(** The query [queryOverpass(lat, lon, 3000, ['hospital','clinic','pharmacy'])]. *)
Definition nearby_places (service : string -> js jsval) (lat lon : float) : list place :=
  queryOverpass service (JNumber lat) (JNumber lon) (JNumber 3000)
    ["hospital"; "clinic"; "pharmacy"]%string.

(** [Math.round(distanceMeters(lat, lon, p.lat, p.lon))] (line 151) *)
Definition shown_dist (lat lon : float) (p : place) : float :=
  Math_round (distanceMeters (JNumber lat) (JNumber lon) (p_lat p) (p_lon p)).

Definition entry_of (lat lon : float) (p : place) : entry :=
  mkEntry p (shown_dist lat lon p) lat lon.

(** The markers the [forEach] of lines 150-186 adds, the first one labelled
    "(Nearest)". *)
Definition markers_of (es : list entry) : list marker :=
  imap (fun idx e => mkMarker (p_lat (e_place e)) (p_lon (e_place e)) (p_name (e_place e))
                              (p_type (e_place e)) (e_dist e) (bool_decide (idx = 0%nat))) es.

(** The rest of [findNearbyPlaces] once the places arrive (lines 136-186):
    every marker but the user's is removed, then the sorted list and its
    markers are rendered. *)
Definition findNearbyPlaces_finish (lat lon : float) (places : list place) (s : page) : page :=
  let s := set_markers [] s in
  match places with
  | [] => set_list ListNone s
  | _ =>
      let es := map (entry_of lat lon) (rank_places (JNumber lat) (JNumber lon) places) in
      set_markers (markers_of es) (set_list (ListEntries es) s)
  end.

(** The geolocation success callback (lines 61-71). *)
Definition geo_success (lat lng acc : float) (s : page) : page :=
  findNearbyPlaces_start lat lng
    (mkPage (Some (lat, lng)) (Some (lat, lng)) (lat, lng, 15%Z) (LocShown lat lng acc)
            (places_list s) (markers s) (alerts s) (pending s) (server s)).

(** [{ lat, lon, timestamp: new Date().toISOString() }] *)
Definition user_obj (lat lon : float) (now : string) : jsval :=
  JObject [("lat", JNumber lat); ("lon", JNumber lon); ("timestamp", JString now)]%string.

(** [nearest || null] *)
Definition or_null (v : jsval) : jsval := if truthy v then v else JNull.

(** The panic payload of lines 35-39. *)
Definition panic_payload (lat lng : float) (now : string) (nearest : jsval) : jsval :=
  JObject [("user", user_obj lat lng now); ("nearest_place", or_null nearest);
           ("note", JString "Panic button pressed - demo alert")]%string.

(** The payload of the list button (lines 161-165). *)
Definition send_payload (lat lon : float) (now : string) (p : place) : jsval :=
  JObject [("user", user_obj lat lon now); ("nearest_place", JObject (place_obj p));
           ("note", JString "Manual send of nearest place via list button")]%string.

(** [data.message || 'ok'] *)
Definition message_of (body : jsval) : jsval :=
  match get_prop body "message" with
  | Ok m => if truthy m then m else JString "ok"
  | Err _ => JString "ok"
  end.

(** [fetch('/api/send-alert', { body: JSON.stringify(payload) })] then
    [await res.json()]: the server parses the body, handles it, and the
    client reads the JSON answer; a lost request or an error page (not
    JSON) goes to the [catch]. *)
Definition post_alert (now : string) (post_ok : bool) (payload : jsval)
    (sent : jsval -> alert_msg) (failed : alert_msg) (s : page) : page :=
  if post_ok then
    let '(f, r) := send_alert now (json_roundtrip payload) (server s) in
    let s := set_server f s in
    match r with
    | RespJson _ body => add_alert (sent (message_of body)) s
    | RespServerError => add_alert failed s
    end
  else add_alert failed s.

(** The query of line 32, sent at the click from the position then known. *)
Definition panic_places (service : string -> js jsval) (lat lng : float) : list place :=
  queryOverpass service (JNumber lat) (JNumber lng) (JNumber 2000)
    ["hospital"; "pharmacy"; "clinic"]%string.

(** The panic handler after its [await] (lines 33-52): it reads the global
    [userLatLng] again, as it is now. *)
Definition panic_finish (places : list place) (now : string) (post_ok : bool) (s : page) : page :=
  match user_latlng s with
  | None => s   (* [userLatLng.lat] throws; the rejection is unhandled *)
  | Some (lat, lng) =>
      let nearest := findNearestPlace (userLatLng_obj lat lng) places in
      post_alert now post_ok (panic_payload lat lng now nearest) AlertPanicSent AlertPanicError s
  end.

(** ** Events *)

Definition step (s : page) (ev : event) : option page :=
  match ev with
  | EvRefresh =>   (* lines 18-24 *)
      Some (match user_latlng s with
            | Some (lat, lng) => findNearbyPlaces_start lat lng s
            | None => detectLocationAndShow s
            end)
  | EvPanic =>     (* lines 26-32 *)
      Some (match user_latlng s with
            | None => add_alert AlertNoLocation s
            | Some (lat, lng) => add_task (TPanic lat lng) s
            end)
  | EvSend j now post_ok =>   (* the button of entry [j] (lines 160-178) *)
      match places_list s with
      | ListEntries es =>
          match es !! j with
          | Some e => Some (post_alert now post_ok (send_payload (e_lat e) (e_lon e) now (e_place e))
                                       AlertSent AlertSendError s)
          | None => None
          end
      | _ => None
      end
  | EvComplete i c =>
      match pending s !! i with
      | None => None
      | Some t =>
          let s := set_pending (delete i (pending s)) s in
          match t, c with
          | TGeo, CGeoOk lat lng acc => Some (geo_success lat lng acc s)
          | TGeo, CGeoErr => Some (set_loc LocDenied s)
          | TNearby lat lon, CQuery service _ _ =>
              Some (findNearbyPlaces_finish lat lon (nearby_places service lat lon) s)
          | TPanic lat lng, CQuery service now post_ok =>
              Some (panic_finish (panic_places service lat lng) now post_ok s)
          | _, _ => None
          end
      end
  end.

(** The pages reachable from the loaded page. *)
Inductive reachable : page -> Prop :=
| reach_load : reachable load_page
| reach_step s ev s' : reachable s -> step s ev = Some s' -> reachable s'.

(** Running a sequence of events. *)
Fixpoint run (s : page) (evs : list event) : option page :=
  match evs with
  | [] => Some s
  | ev :: evs' => match step s ev with Some s' => run s' evs' | None => None end
  end.

End Controller.

(** ** Facts about the handlers *)

Section ControllerFacts.
Context `{HL : HostLaws}.
Variable has_geolocation : bool.

(** The record the server keeps of a panic payload with [nearest = null]. *)
Lemma panic_record_null lat lng now :
  exists fs, alert_record (now, json_roundtrip (panic_payload lat lng now JNull)) = JObject fs /\
             obj_get fs "nearest_place" = JNull.
Proof. eexists. split; reflexivity. Qed.

(** A POST that reaches a server able to push appends the payload's record
    and shows the server's message. *)
Lemma post_alert_ok now payload sent failed s xs :
  log_of (server s) = Some xs ->
  exists f, post_alert now true payload sent failed s =
              add_alert (sent (JString "Alert received on server")) (set_server f s) /\
            log_of f = Some (map json_elem xs ++ [alert_record (now, json_roundtrip payload)]).
Proof.
  intros Hf. destruct (send_alert_log now (json_roundtrip payload) _ _ Hf) as [Hl Hr].
  unfold post_alert. destruct (send_alert _ _ _) as [f r]. simpl in Hl, Hr. subst r.
  exists f. split; [reflexivity|done].
Qed.

(** ** The invariant of the reachable pages *)

(** The alerts file is one the handler can push to, and its alerts are as
    JSON reads them back. *)
Definition log_normal (f : fs_state) : Prop :=
  exists xs, log_of f = Some xs /\ map json_elem xs = xs.

(** The place markers are none, or those of one rendered list. *)
Definition markers_shape (m : list marker) : Prop := m = [] \/ exists es, m = markers_of es.

(** The map shows the markers of the list on display; while a search is
    running it still shows those of an earlier list. *)
Definition markers_agree (s : page) : Prop :=
  match places_list s with
  | ListEntries es => markers s = markers_of es
  | ListNone => markers s = []
  | _ => markers_shape (markers s)
  end.

Definition page_inv (s : page) : Prop :=
  (user_latlng s = None -> Forall (fun t => t = TGeo) (pending s)) /\
  user_marker s = user_latlng s /\
  markers_agree s /\
  log_normal (server s).

Lemma log_normal_push now body f : log_normal f -> log_normal (send_alert now body f).1.
Proof.
  intros (xs & Hf & Hn). destruct (send_alert_log now body f xs Hf) as [Hl _].
  rewrite Hn in Hl. eexists. split; [exact Hl|].
  rewrite map_app, Hn. cbn [map]. by rewrite json_elem_record.
Qed.

Lemma post_alert_frame now ok payload sent failed s :
  log_normal (server s) ->
  exists a f, post_alert now ok payload sent failed s = add_alert a (set_server f s) /\ log_normal f.
Proof.
  intros Hl. unfold post_alert. destruct ok.
  - pose proof (log_normal_push now (json_roundtrip payload) _ Hl) as Hp.
    destruct (send_alert _ _ _) as [f r]. destruct r; eauto.
  - exists failed, (server s). split; [by destruct s|done].
Qed.

Lemma page_inv_alert_server a f s : page_inv s -> log_normal f -> page_inv (add_alert a (set_server f s)).
Proof. intros (H1 & H2 & H3 & _) Hf. by repeat split. Qed.

Lemma post_alert_inv now ok payload sent failed s :
  page_inv s -> page_inv (post_alert now ok payload sent failed s).
Proof.
  intros Hi. destruct (post_alert_frame now ok payload sent failed s) as (a & f & -> & Hf);
    [apply Hi|]. by apply page_inv_alert_server.
Qed.

Lemma markers_agree_shape s : markers_agree s -> markers_shape (markers s).
Proof.
  unfold markers_agree, markers_shape. destruct (places_list s); eauto.
Qed.

Lemma findNearbyPlaces_finish_agree lat lon places s :
  markers_agree (findNearbyPlaces_finish lat lon places s).
Proof. unfold findNearbyPlaces_finish. by destruct places. Qed.

Lemma step_inv s ev s' : page_inv s -> step has_geolocation s ev = Some s' -> page_inv s'.
Proof.
  intros Hi Hs. pose proof Hi as (H1 & H2 & H3 & H4).
  destruct ev as [| |j now ok|i c]; simpl in Hs.
  - injection Hs as <-. destruct (user_latlng s) as [[lat lng]|] eqn:E.
    + unfold page_inv; simpl; rewrite ?E; repeat split; try done. exact (markers_agree_shape s H3).
    + unfold detectLocationAndShow. destruct has_geolocation;
        unfold page_inv; simpl; rewrite ?E; repeat split; try done.
      intros _. apply Forall_app. auto.
  - injection Hs as <-. destruct (user_latlng s) as [[lat lng]|] eqn:E;
      unfold page_inv; simpl; rewrite ?E; repeat split; done.
  - destruct (places_list s) as [| | |es]; try done. destruct (es !! j) as [e|]; [|done].
    injection Hs as <-. by apply post_alert_inv.
  - destruct (pending s !! i) as [t|] eqn:Ei; [|done].
    assert (Hd : page_inv (set_pending (delete i (pending s)) s)).
    { repeat split; try done. intros Hu. apply Forall_delete. by apply H1. }
    destruct t as [|la lo|pa pl], c as [gla glo acc| |svc now ok]; try done;
      injection Hs as <-.
    + unfold page_inv; simpl. repeat split; try done. exact (markers_agree_shape s H3).
    + destruct Hd as (D1 & D2 & D3 & D4). by repeat split.
    + destruct Hd as (D1 & D2 & D3 & D4). repeat split; try done.
      * unfold findNearbyPlaces_finish. by destruct (nearby_places svc la lo).
      * unfold findNearbyPlaces_finish. by destruct (nearby_places svc la lo).
      * apply findNearbyPlaces_finish_agree.
      * unfold findNearbyPlaces_finish. by destruct (nearby_places svc la lo).
    + unfold panic_finish. simpl. destruct (user_latlng s) as [[la ln]|]; [|done].
      by apply post_alert_inv.
Qed.

Lemma run_reachable s evs s' :
  reachable has_geolocation s -> run has_geolocation s evs = Some s' -> reachable has_geolocation s'.
Proof.
  revert s. induction evs as [|ev evs IH]; simpl; intros s Hr E; [by injection E as <-|].
  destruct (step has_geolocation s ev) as [s1|] eqn:Es; [|done].
  apply (IH s1); [by eapply reach_step|done].
Qed.

Lemma load_page_inv : page_inv (load_page has_geolocation).
Proof.
  unfold load_page, detectLocationAndShow, page_inv.
  destruct has_geolocation; simpl; (repeat split); try (intros _; repeat constructor);
    try (by left); by exists [].
Qed.

(** C7: the invariant of every reachable page: while the position is
    unknown only geolocation requests are pending; the user marker sits at
    [userLatLng]; the place markers are those of the list on display; the
    server's file is an array of alerts, as JSON reads them back. *)
Theorem reachable_inv s : reachable has_geolocation s -> page_inv s.
Proof.
  induction 1 as [|s ev s' _ IH Hs]; [apply load_page_inv|]. by eapply step_inv.
Qed.

(** C1: end to end, every panic alert that reaches the server is recorded
    with [nearest_place: null]: when the panic handler's query completes
    and its POST goes through, the server's log grows by one record whose
    [nearest_place] is [null], and the page shows the server's message. *)
Theorem panic_alert_records_null s i la lo svc now s' :
  reachable has_geolocation s -> pending s !! i = Some (TPanic la lo) ->
  step has_geolocation s (EvComplete i (CQuery svc now true)) = Some s' ->
  exists xs fs, log_of (server s) = Some xs /\ log_of (server s') = Some (xs ++ [JObject fs]) /\
    obj_get fs "nearest_place" = JNull /\
    alerts s' = alerts s ++ [AlertPanicSent (JString "Alert received on server")].
Proof.
  intros Hr Hi Hs. destruct (reachable_inv s Hr) as (H1 & _ & _ & xs & Hx & Hn).
  simpl in Hs. rewrite Hi in Hs. injection Hs as <-. unfold panic_finish.
  change (user_latlng (set_pending (delete i (pending s)) s)) with (user_latlng s).
  destruct (user_latlng s) as [[lat lng]|] eqn:Eu.
  - rewrite (findNearestPlace_all_nan _ _ (userLatLng_dists_nan lat lng _)).
    destruct (post_alert_ok now (panic_payload lat lng now JNull) AlertPanicSent AlertPanicError
                (set_pending (delete i (pending s)) s) xs Hx) as (f & -> & Hf).
    destruct (panic_record_null lat lng now) as (fs & Efs & Hfs).
    exists xs, fs. rewrite Hn, Efs in Hf. done.
  - exfalso. specialize (H1 eq_refl). rewrite Forall_lookup in H1. by specialize (H1 _ _ Hi).
Qed.







(** C16: a nearby query renders the answer for the position it was started
    from, whatever [userLatLng] is by the time it completes: the list shows
    exactly the places the service returned for that position (reordered),
    each entry carrying that position and its distance from it, or "No
    nearby places found" when there are none; [userLatLng] is left as it
    is.  When two position updates race, the older query may complete
    last, and the list then belongs to the older position. *)
Theorem nearby_complete_own_position s i lat lon svc now ok s' :
  pending s !! i = Some (TNearby lat lon) ->
  step has_geolocation s (EvComplete i (CQuery svc now ok)) = Some s' ->
  user_latlng s' = user_latlng s /\ pending s' = delete i (pending s) /\
  ((nearby_places svc lat lon = [] /\ places_list s' = ListNone) \/
   exists es, places_list s' = ListEntries es /\ es <> [] /\
     map e_place es ≡ₚ nearby_places svc lat lon /\
     Forall (fun e => e_lat e = lat /\ e_lon e = lon /\ e_dist e = shown_dist lat lon (e_place e)) es).
Proof.
  intros Hi Hs. simpl in Hs. rewrite Hi in Hs. injection Hs as <-.
  unfold findNearbyPlaces_finish.
  destruct (nearby_places svc lat lon) as [|p ps] eqn:Ep; [by split; [|split; [|left]]|].
  split; [done|]. split; [done|]. right. eexists. split; [reflexivity|].
  assert (Hp : map e_place (map (entry_of lat lon) (rank_places (JNumber lat) (JNumber lon) (p :: ps)))
               ≡ₚ p :: ps).
  { rewrite map_map, (map_ext _ id), map_id by done. apply array_sort_perm. }
  split; [|split; [exact Hp|]].
  - intros E. rewrite E in Hp. by apply Permutation_nil_cons in Hp.
  - apply Forall_map, Forall_forall. done.
Qed.

(** The record the server keeps of a list-button payload. *)
Lemma send_record lat lon now p :
  alert_record (now, json_roundtrip (send_payload lat lon now p)) =
  JObject [("timestamp", JString now); ("user", json_roundtrip (json_roundtrip (user_obj lat lon now)));
           ("nearest_place", json_roundtrip (json_roundtrip (JObject (place_obj p))));
           ("note", JString "Manual send of nearest place via list button")]%string.
Proof. reflexivity. Qed.

(** C22: the "Send to nearest" button of entry [j] records that entry's
    place (as JSON reads it back) with the position the list was computed
    for, which may be older than [userLatLng]; the server's log grows by
    that one record. *)
Theorem list_send_records_entry s es j e now s' :
  reachable has_geolocation s -> places_list s = ListEntries es -> es !! j = Some e ->
  step has_geolocation s (EvSend j now true) = Some s' ->
  exists xs fs, log_of (server s) = Some xs /\ log_of (server s') = Some (xs ++ [JObject fs]) /\
    obj_get fs "nearest_place" = json_roundtrip (JObject (place_obj (e_place e))) /\
    obj_get fs "user" = json_roundtrip (user_obj (e_lat e) (e_lon e) now).
Proof.
  intros Hr Hl Hj Hs. destruct (reachable_inv s Hr) as (_ & _ & _ & xs & Hx & Hn).
  unfold step in Hs. rewrite Hl, Hj in Hs.
  destruct (post_alert_ok now (send_payload (e_lat e) (e_lon e) now (e_place e)) AlertSent AlertSendError
              s xs Hx) as (f & Ef & Hf).
  rewrite Ef in Hs. injection Hs as <-.
  rewrite send_record, Hn in Hf. eexists _, _. split; [done|]. split; [exact Hf|].
  split; [exact (json_roundtrip_idem (JObject (place_obj (e_place e))))|].
  exact (json_roundtrip_idem (user_obj (e_lat e) (e_lon e) now)).
Qed.

End ControllerFacts.

(** ** A race between two position updates *)

(** An Overpass service that always answers with one hospital at
    (12.9720, 77.5946). *)
Definition one_hospital_service (q : string) : js jsval :=
  Ok (JObject [("elements", JArray [JObject [("id", JNumber 2); ("lat", JNumber 12.9720);
        ("lon", JNumber 77.5946); ("tags", JObject [("amenity", JString "hospital")])]])])%string.

(** A Refresh click while the position is unknown leaves two geolocation
    requests; they answer with two positions, so two queries of
    [findNearbyPlaces] are pending, the older one first, and [userLatLng]
    is the newer position. *)
Definition race_events : list event :=
  [EvRefresh;
   EvComplete 0 (CGeoOk 12.9716 77.5946 10);
   EvComplete 0 (CGeoOk 13.0827 80.2707 10)].

Definition race_before : page :=
  default (load_page true) (run (H := toy_host) true (load_page true) race_events).

(** The older query completes last. *)
Definition race_after : page :=
  default race_before
    (step (H := toy_host) true race_before (EvComplete 0 (CQuery one_hospital_service "t" true))).

Lemma nearby_complete_own_position_witness :
  user_latlng race_before = Some (13.0827, 80.2707) /\
  user_latlng race_after = user_latlng race_before /\ pending race_after = delete 0%nat (pending race_before) /\
  ((nearby_places one_hospital_service 12.9716 77.5946 = [] /\ places_list race_after = ListNone) \/
   exists es, places_list race_after = ListEntries es /\ es <> [] /\
     map e_place es ≡ₚ nearby_places one_hospital_service 12.9716 77.5946 /\
     Forall (fun e => e_lat e = 12.9716 /\ e_lon e = 77.5946 /\
                      e_dist e = shown_dist 12.9716 77.5946 (e_place e)) es).
Proof.
  split; [vm_compute; reflexivity|].
  apply (nearby_complete_own_position true race_before 0%nat 12.9716 77.5946 one_hospital_service "t" true);
    vm_compute; reflexivity.
Defined.

(** ** Runs *)

Lemma reachable_inv_witness : page_inv (load_page true).
Proof. apply (reachable_inv true). apply reach_load. Defined.

(** The page after the position is known and the panic button is pressed. *)
Definition panic_demo_before : page :=
  default (load_page true)
    (run (H := toy_host) true (load_page true) [EvComplete 0 (CGeoOk 12.9716 77.5946 10); EvPanic]).

Definition panic_demo_after : page :=
  default panic_demo_before
    (step (H := toy_host) true panic_demo_before (EvComplete 1 (CQuery one_hospital_service "t" true))).

Lemma panic_alert_records_null_witness :
  exists xs fs, log_of (server panic_demo_before) = Some xs /\
    log_of (server panic_demo_after) = Some (xs ++ [JObject fs]) /\
    obj_get fs "nearest_place" = JNull /\
    alerts panic_demo_after = alerts panic_demo_before ++ [AlertPanicSent (JString "Alert received on server")].
Proof.
  apply (panic_alert_records_null true panic_demo_before 1 12.9716 77.5946 one_hospital_service "t").
  - apply (run_reachable true (load_page true) [EvComplete 0 (CGeoOk 12.9716 77.5946 10); EvPanic]);
      [apply reach_load|vm_compute; reflexivity].
  - vm_compute. reflexivity.
  - vm_compute. reflexivity.
Defined.

(** The page once the position is known and the nearby query answered. *)
Definition nearby_demo_events : list event :=
  [EvComplete 0 (CGeoOk 12.9716 77.5946 10); EvComplete 0 (CQuery one_hospital_service "t" true)].

Definition nearby_demo : page :=
  default (load_page true) (run (H := toy_host) true (load_page true) nearby_demo_events).

Definition nearby_demo_entry : entry :=
  default (entry_of 0 0 demo_place) (match places_list nearby_demo with ListEntries es => head es | _ => None end).

Definition send_demo_after : page :=
  default nearby_demo (step (H := toy_host) true nearby_demo (EvSend 0 "t2" true)).

Lemma nearby_demo_reachable : reachable (H := toy_host) true nearby_demo.
Proof.
  apply (run_reachable true (load_page true) nearby_demo_events); [apply reach_load|].
  vm_compute. reflexivity.
Qed.

Lemma list_send_records_entry_witness :
  exists xs fs, log_of (server nearby_demo) = Some xs /\ log_of (server send_demo_after) = Some (xs ++ [JObject fs]) /\
    obj_get fs "nearest_place" = json_roundtrip (JObject (place_obj (e_place nearby_demo_entry))) /\
    obj_get fs "user" = json_roundtrip (user_obj (e_lat nearby_demo_entry) (e_lon nearby_demo_entry) "t2").
Proof.
  apply (list_send_records_entry true nearby_demo
           [nearby_demo_entry] 0 nearby_demo_entry "t2" send_demo_after).
  - exact nearby_demo_reachable.
  - vm_compute. reflexivity.
  - reflexivity.
  - vm_compute. reflexivity.
Defined.
