(* ===== verification/Itinerary.v ===== *)
(** * Itinerary route and its client: src/server.js and src/script1.js

    [get_itinerary] is the handler of [POST /get-itinerary] (server.js,
    lines 16-35): it destructures [mood] from the parsed body, answers 400
    when [mood] is falsy, otherwise sends a chat request to the completion
    service and answers [{ itinerary }] with the content of the first
    choice, or 500 when the call or the property chain throws.  The
    service is a parameter (a function from the request object to the
    completion of the awaited call); [console.error] is output only.
    [ping] is the test route (line 13).

    [generate_click] is the click handler of script1.js: it POSTs
    [{ mood }] with the input's text, reads the JSON answer and shows
    [data.itinerary || 'No itinerary returned.'], or the error text when
    the request fails.  What crosses the network is a JSON text, so the
    client reads [json_roundtrip] of the server's object.

    Theorems: the client never shows the server's error messages (an
    empty mood, answered 400, and a failed completion, answered 500, both
    read "No itinerary returned."); a non-empty string content is shown
    as is. *)

From S2P Require Import Prelude JsFloat Host JsValue AlertServer.

Open Scope float_scope.

Section Itinerary.
Context `{JsHost}.

(** What the server does with a request. *)
Inductive http_reply : Type :=
| HttpJson (status : Z) (body : jsval)
| HttpNoReply.   (* the async handler rejected before answering *)

(** [app.get('/ping', ...)] *)
Definition ping : http_reply :=
  HttpJson 200 (JObject [("ok", JBool true); ("msg", JString "pong")]%string).

(** The template literal of line 25. *)
Definition itinerary_prompt (mood : jsval) : string :=
  ("Create a one-day itinerary for someone feeling " +:+ to_string mood +:+
   ". Keep it short and actionable.")%string.

(** The argument of [openai.chat.completions.create] (lines 21-27). *)
Definition chat_request (mood : jsval) : jsval :=
  JObject [("model", JString "gpt-4o-mini");
           ("messages", JArray [JObject [("role", JString "system");
                                         ("content", JString "You are a helpful travel planner.")];
                                JObject [("role", JString "user");
                                         ("content", JString (itinerary_prompt mood))]])]%string.

(** [response.choices[0].message.content] (line 29) *)
Definition choice_content (response : jsval) : js jsval :=
  let? choices := get_prop response "choices" in
  let? c0 := get_prop choices "0" in
  let? msg := get_prop c0 "message" in
  get_prop msg "content".

Definition error_body (msg : string) : jsval := JObject [("error", JString msg)]%string.

(** The handler of lines 16-35. *)
Definition get_itinerary (openai : jsval -> js jsval) (body : jsval) : http_reply :=
  match get_prop body "mood" with
  | Err _ => HttpNoReply
  | Ok mood =>
      if negb (truthy mood) then HttpJson 400 (error_body "Mood is required")
      else match (let? response := openai (chat_request mood) in choice_content response) with
           | Ok itinerary => HttpJson 200 (JObject [("itinerary", itinerary)]%string)
           | Err _ => HttpJson 500 (error_body "Failed to generate itinerary")
           end
  end.

Definition no_itinerary : string := "No itinerary returned.".

(** The click handler of script1.js: the text [#result] shows, or [None]
    when the request never settles.  [net_ok] is false when [fetch]
    rejects. *)
Definition generate_click (mood : string) (net_ok : bool) (server : jsval -> http_reply) : option string :=
  if negb net_ok then Some "Error fetching itinerary."%string
  else match server (json_roundtrip (JObject [("mood", JString mood)]%string)) with
       | HttpNoReply => None
       | HttpJson _ body =>
           let data := json_roundtrip body in
           match (let? it := get_prop data "itinerary" in js_or it (Ok (JString no_itinerary))) with
           | Ok v => Some (to_string v)
           | Err _ => Some "Error fetching itinerary."%string
           end
       end.

End Itinerary.

Section ItineraryFacts.
Context `{JsHost}.

Lemma truthy_string s : truthy (JString s) = negb (bool_decide (s = ""%string)).
Proof. reflexivity. Qed.

(** C20: the client never shows why no itinerary came: an empty mood (the
    server's 400) and a failed completion (the server's 500) both show
    "No itinerary returned.", the text of a successful call with no
    content. *)
Theorem itinerary_errors_hidden mood openai :
  (mood = ""%string \/
   exists e, (let? response := openai (chat_request (JString mood)) in choice_content response) = Err e) ->
  generate_click mood true (get_itinerary openai) = Some no_itinerary.
Proof.
  intros Hm. unfold generate_click, get_itinerary. simpl.
  destruct Hm as [->|[e He]]; [reflexivity|].
  case_bool_decide; [reflexivity|]. simpl. rewrite He. reflexivity.
Qed.

(** C21: a non-empty string returned as the first choice's content is shown
    as it is. *)
Theorem itinerary_shown mood openai c :
  mood <> ""%string -> c <> ""%string ->
  (let? response := openai (chat_request (JString mood)) in choice_content response) = Ok (JString c) ->
  generate_click mood true (get_itinerary openai) = Some c.
Proof.
  intros Hm Hc Ho. unfold generate_click, get_itinerary. simpl.
  rewrite bool_decide_false by done. simpl. rewrite Ho. simpl.
  unfold js_or. rewrite truthy_string, bool_decide_false by done. reflexivity.
Qed.

End ItineraryFacts.

(** ** Runs *)

Definition failing_service (_ : jsval) : js jsval := Err FetchFailed.

Definition park_service (_ : jsval) : js jsval :=
  Ok (JObject [("choices", JArray [JObject [("message",
        JObject [("role", JString "assistant"); ("content", JString "Walk in Cubbon Park")])]])])%string.

Lemma itinerary_errors_hidden_witness :
  generate_click (H := toy_host) "" true (get_itinerary failing_service) = Some no_itinerary /\
  generate_click (H := toy_host) "calm" true (get_itinerary failing_service) = Some no_itinerary.
Proof.
  split; apply itinerary_errors_hidden; [left; reflexivity|right; eexists; reflexivity].
Defined.

Lemma itinerary_shown_witness :
  generate_click (H := toy_host) "calm" true (get_itinerary park_service) = Some "Walk in Cubbon Park"%string.
Proof. apply itinerary_shown; [discriminate|discriminate|vm_compute; reflexivity]. Defined.
